(** * components/interactive_image.py - point overlay, ROI selector, manual
      point editor

    A shallow embedding of the three Streamlit components of
    [components/interactive_image.py] and the properties of their
    coordinate handling, colour selection, label parsing and result
    descriptors.

    Conventions of the embedding.
    - Python [int] is [Z]; Python [float] is the kernel's binary64 [float]
      (IEEE 754, round to nearest even), so that rounding is the machine's.
    - An exception is a value of [exn]; code that may raise lives in the
      [result] monad.
    - A widget call ([st.button], [st.plotly_chart], [st_canvas],
      [st.selectbox], [st.number_input]) is an input of the rerun: the model
      takes what the widget returns as an argument.
    - A library call that checks its arguments ([go.Scatter],
      [fig.update_layout]) is modelled by that check; captions, the [key]
      strings and the constant layout options reach no returned value and
      raise nothing, and are left out.
    - A PIL image is its size: pixel data and mode are not represented. *)

From Stdlib Require Import ZArith QArith Qabs Floats Bool List Ascii String Lia Lqa.
Import ListNotations.

Set Warnings "-inexact-float".

Local Open Scope Z_scope.

(* ================================================================== *)
(** * Python values and primitives *)
(* ================================================================== *)

Module Py.

(** The built-in exceptions the modelled code can raise. *)
Inductive exn : Set :=
| ZeroDivisionError
| OverflowError
| ValueError
| IndexError
| AttributeError.

Inductive result (A : Type) : Type :=
| Ok (a : A)
| Raise (e : exn).

Arguments Ok {A} a.
Arguments Raise {A} e.

Definition bind {A B : Type} (c : result A) (k : A -> result B) : result B :=
  match c with
  | Ok a => k a
  | Raise e => Raise e
  end.

(** [[f(x) for x in xs]]: the comprehension stops at the first exception. *)
Fixpoint traverse {A B : Type} (f : A -> result B) (xs : list A) : result (list B) :=
  match xs with
  | [] => Ok []
  | x :: xs' =>
      bind (f x) (fun y => bind (traverse f xs') (fun ys => Ok (y :: ys)))
  end.

(** ** Numbers *)

(** A Python number: an [int] of any size or a binary64 [float]. *)
Inductive num : Set :=
| Int (z : Z)
| Float (f : float).

(** Magnitudes from [2^1024 - 2^970] on round to [2^1024], which binary64
    cannot hold: [float(n)] raises [OverflowError] there. *)
Definition float_of_int_limit : Z := 2 ^ 1024 - 2 ^ 970.

(** [float(z)] for an [int] within range: the nearest binary64, ties to even. *)
Definition Z2float (z : Z) : float :=
  SF2Prim (binary_normalize prec emax z 0 false).

Definition float_of_int (z : Z) : result float :=
  if Z.abs z <? float_of_int_limit then Ok (Z2float z) else Raise OverflowError.

(** The implicit conversion of a mixed [int]/[float] operation. *)
Definition as_float (n : num) : result float :=
  match n with
  | Int z => float_of_int z
  | Float f => Ok f
  end.

(** [a - b], [a + b], [a * b]: exact on two [int]s, binary64 otherwise. *)
Definition sub (a b : num) : result num :=
  match a, b with
  | Int x, Int y => Ok (Int (x - y))
  | _, _ =>
      bind (as_float a) (fun fa =>
      bind (as_float b) (fun fb => Ok (Float (PrimFloat.sub fa fb))))
  end.

Definition add (a b : num) : result num :=
  match a, b with
  | Int x, Int y => Ok (Int (x + y))
  | _, _ =>
      bind (as_float a) (fun fa =>
      bind (as_float b) (fun fb => Ok (Float (PrimFloat.add fa fb))))
  end.

Definition mul (a b : num) : result num :=
  match a, b with
  | Int x, Int y => Ok (Int (x * y))
  | _, _ =>
      bind (as_float a) (fun fa =>
      bind (as_float b) (fun fb => Ok (Float (PrimFloat.mul fa fb))))
  end.

(** [a / b] on two [int]s (true division): the correctly rounded quotient.
    The quotient is taken with at least 55 significant bits and a sticky
    bit for the remainder, then rounded once to binary64. *)
Definition int_truediv (a b : Z) : result float :=
  if b =? 0 then Raise ZeroDivisionError
  else if a =? 0 then Ok (if b <? 0 then PrimFloat.neg_zero else PrimFloat.zero)
  else
    let na := Z.abs a in
    let nb := Z.abs b in
    let k := Z.max 0 (Z.log2 nb - Z.log2 na + 55) in
    let q := (na * 2 ^ k) / nb in
    let sticky := if (na * 2 ^ k) mod nb =? 0 then 0 else 1 in
    let m := 2 * q + sticky in
    let sm := if xorb (a <? 0) (b <? 0) then - m else m in
    match binary_normalize prec emax sm (- k - 1) false with
    | S754_infinity _ => Raise OverflowError
    | sf => Ok (SF2Prim sf)
    end.

(** The exact rational value of a finite float. *)
Definition float_value (f : float) : option Q :=
  match Prim2SF f with
  | S754_zero _ => Some 0%Q
  | S754_finite s m e =>
      let q := if 0 <=? e then inject_Z (Zpos m * 2 ^ e)
               else Qmake (Zpos m) (Z.to_pos (2 ^ (- e))) in
      Some (if s then Qopp q else q)
  | S754_infinity _ | S754_nan => None
  end.

Definition value (n : num) : option Q :=
  match n with
  | Int z => Some (inject_Z z)
  | Float f => float_value f
  end.

(** [int(f)]: truncation toward zero; [OverflowError] on an infinity,
    [ValueError] on a NaN. *)
Definition float_trunc (f : float) : result Z :=
  match Prim2SF f with
  | S754_zero _ => Ok 0
  | S754_finite s m e =>
      let v := if 0 <=? e then Zpos m * 2 ^ e else Zpos m / 2 ^ (- e) in
      Ok (if s then - v else v)
  | S754_infinity _ => Raise OverflowError
  | S754_nan => Raise ValueError
  end.

Definition int_of_num (n : num) : result Z :=
  match n with
  | Int z => Ok z
  | Float f => float_trunc f
  end.

(** [a == b] on numbers: two [int]s or two [float]s compare directly (a
    NaN equals nothing); an [int] and a [float] compare by exact value. *)
Definition eqb (a b : num) : bool :=
  match a, b with
  | Int x, Int y => x =? y
  | Float f, Float g => PrimFloat.eqb f g
  | Int x, Float f | Float f, Int x =>
      match float_value f with
      | Some q => Qeq_bool q (inject_Z x)
      | None => false
      end
  end.

(** ** Strings *)

Local Open Scope string_scope.
Local Open Scope Z_scope.

Definition code (c : ascii) : Z := Z.of_nat (nat_of_ascii c).

(** [c.isspace()] for a code point below 256. *)
Definition is_space (c : ascii) : bool :=
  let n := code c in
  ((9 <=? n) && (n <=? 13)) || ((28 <=? n) && (n <=? 32)) || (n =? 133) || (n =? 160).

Definition is_digit (c : ascii) : bool :=
  let n := code c in (48 <=? n) && (n <=? 57).

Definition digit_char (d : Z) : ascii :=
  match d with
  | 0 => "0" | 1 => "1" | 2 => "2" | 3 => "3" | 4 => "4"
  | 5 => "5" | 6 => "6" | 7 => "7" | 8 => "8" | _ => "9"
  end%char.

(** The decimal digits of [n >= 0], most significant first, in front of
    [acc]; [fuel] bounds the number of digits. *)
Fixpoint digits_fuel (fuel : nat) (n : Z) (acc : string) : string :=
  match fuel with
  | O => acc
  | S k =>
      let acc' := String (digit_char (n mod 10)) acc in
      if n <? 10 then acc' else digits_fuel k (n / 10) acc'
  end.

Definition str_of_nonneg (n : Z) : string :=
  digits_fuel (S (Z.to_nat (Z.log2 n))) n "".

(** [str(z)] on an [int]. *)
Definition str_of_int (z : Z) : string :=
  if z <? 0 then String "-" (str_of_nonneg (- z)) else str_of_nonneg z.

(** Every character of [s] satisfies [p]. *)
Fixpoint all_chars (p : ascii -> bool) (s : string) : bool :=
  match s with
  | "" => true
  | String c t => p c && all_chars p t
  end.

(** The integer nearest to [m * 2^e * 1000], ties to even: the digits of
    a positive finite float in fixed notation with three decimals. *)
Definition thousandths (m : positive) (e : Z) : Z :=
  if 0 <=? e then Zpos m * 2 ^ e * 1000
  else
    let num := Zpos m * 1000 in
    let den := 2 ^ (- e) in
    let q := num / den in
    let r := num mod den in
    match 2 * r ?= den with
    | Lt => q
    | Gt => q + 1
    | Eq => if Z.even q then q else q + 1
    end.

Definition pad3 (k : Z) : string :=
  String (digit_char (k / 100))
    (String (digit_char (k / 10 mod 10)) (String (digit_char (k mod 10)) "")).

(** [format(n, ".3f")]: an [int] goes through [float] first; the exact
    value is rounded to three decimals, ties to even, and the sign bit is
    kept even when the digits are all zero. *)
Definition format_3f (n : num) : result string :=
  bind (as_float n) (fun f =>
  Ok (match Prim2SF f with
      | S754_nan => "nan"
      | S754_infinity s => if s then "-inf" else "inf"
      | S754_zero s => if s then "-0.000" else "0.000"
      | S754_finite s m e =>
          let t := thousandths m e in
          ((if s then "-" else "") ++ str_of_nonneg (t / 1000) ++ "."
             ++ pad3 (t mod 1000))%string
      end)).

Fixpoint lstrip (s : string) : string :=
  match s with
  | "" => ""
  | String c t => if is_space c then lstrip t else s
  end.

Fixpoint rstrip (s : string) : string :=
  match s with
  | "" => ""
  | String c t =>
      match rstrip t with
      | "" => if is_space c then "" else String c ""
      | t' => String c t'
      end
  end.

Definition strip (s : string) : string := rstrip (lstrip s).

(** The digits of an integer literal: a digit, then digits each optionally
    preceded by one underscore. [after_digit] says that the previous
    character was a digit. *)
Fixpoint int_digits (s : string) (acc : Z) (after_digit : bool) : option Z :=
  match s with
  | "" => if after_digit then Some acc else None
  | String c t =>
      if is_digit c then int_digits t (10 * acc + (code c - 48)) true
      else if Ascii.eqb c "_" && after_digit then int_digits t acc false
      else None
  end.

(** [int(s)] on a string, base 10: surrounding whitespace, an optional
    sign, then the digits; [ValueError] otherwise. *)
Definition int_of_str (s : string) : result Z :=
  let t := strip s in
  let '(neg, body) :=
    match t with
    | String c r =>
        if Ascii.eqb c "-" then (true, r)
        else if Ascii.eqb c "+" then (false, r)
        else (false, t)
    | "" => (false, t)
    end in
  match int_digits body 0 false with
  | Some v => Ok (if neg then - v else v)
  | None => Raise ValueError
  end.

(** [s.split(sep)] for a one-character separator: never empty. *)
Fixpoint split_on (sep : ascii) (s : string) : list string :=
  match s with
  | "" => [""]
  | String c t =>
      if Ascii.eqb c sep then "" :: split_on sep t
      else match split_on sep t with
           | h :: r => String c h :: r
           | [] => [String c ""]
           end
  end.

(** [s.split()]: the maximal runs of non-whitespace characters. *)
Fixpoint split_ws (s : string) : list string :=
  match s with
  | "" => []
  | String c t =>
      if is_space c then split_ws t
      else match t with
           | "" => [String c ""]
           | String c' _ =>
               if is_space c' then String c "" :: split_ws t
               else match split_ws t with
                    | w :: ws => String c w :: ws
                    | [] => [String c ""]
                    end
           end
  end.

(** [xs[i]] for [i >= 0]. *)
Definition index {A : Type} (xs : list A) (i : nat) : result A :=
  match nth_error xs i with
  | Some a => Ok a
  | None => Raise IndexError
  end.

(** [needle in hay] on strings. *)
Fixpoint contains (needle hay : string) : bool :=
  String.prefix needle hay
  || match hay with
     | "" => false
     | String _ t => contains needle t
     end.

(** Truth value of a string: non-empty. *)
Definition truthy_str (s : string) : bool :=
  match s with
  | "" => false
  | _ => true
  end.

(** [d.get(k, default)] on a dictionary with string keys, kept as an
    association list. *)
Fixpoint dict_get {V : Type} (d : list (string * V)) (k : string) (default : V) : V :=
  match d with
  | [] => default
  | (k', v) :: d' => if String.eqb k' k then v else dict_get d' k default
  end.

End Py.

Import Py.

Notation "x <- c ;; k" := (Py.bind c (fun x => k))
  (at level 61, c at next level, right associativity).

Local Open Scope string_scope.
Local Open Scope Z_scope.

(* ================================================================== *)
(** * Data *)
(* ================================================================== *)

(** A PIL image: the components read only its size. *)
Module Image.
Record t : Set := mk { width : Z; height : Z }.
End Image.

(** A detection dictionary. ['x'] and ['y'] are read with [d[...]], the
    other keys with [d.get(..., default)], so they may be absent. *)
Module Detection.
Record t : Set := mk {
  x : num;
  y : num;
  conf : option num;
  manual : option bool;
  method : option string
}.
End Detection.

(** A region of interest [(x1, y1, x2, y2)]. *)
Definition ROI : Set := (Z * Z * Z * Z)%type.

(* ================================================================== *)
(** * class InteractiveImageEditor *)
(* ================================================================== *)

Module InteractiveImageEditor.

(** What [st.plotly_chart] returned, as far as the click handling reads it:
    a falsy value; an object without the attribute [last_clicked]; an
    object whose [last_clicked] is falsy ([None]) or a dictionary; or an
    object whose [last_clicked] is truthy but no dictionary and has no
    [get]. The last case is the value Streamlit itself returns: a
    [DeltaGenerator] is truthy and answers any attribute name with a
    function. *)
Inductive ChartReturn : Set :=
| Falsy
| NoLastClicked
| LastClicked (click_data : option (list (string * num)))
| LastClickedNotDict.

(** The widget values of one rerun. *)
Record UI : Set := mkUI {
  clicked_data : ChartReturn;
  add_mode : bool;
  remove_mode : bool;
  roi_mode : bool
}.

(** The scatter trace handed to the figure. *)
Record Trace : Set := mkTrace {
  x_coords : list num;
  y_coords : list num;
  marker_size : list num;
  colors : list string;
  text : list string;
  customdata : list num
}.

(** The returned dictionary
    [{"clicked_point": ..., "action": ..., "roi": ...}]. *)
Record Result : Set := mkResult {
  clicked_point : option (num * num);
  action : option string;
  roi : option ROI
}.

(** The colour of one marker (the body of the [for d in detections] loop). *)
Definition marker_color (d : Detection.t) : string :=
  if match Detection.manual d with Some b => b | None => false end then "green"
  else if contains "grid" (match Detection.method d with Some m => m | None => "" end)
  then "red"
  else if contains "roi" (match Detection.method d with Some m => m | None => "" end)
  then "blue"
  else "red".

(** [image.height - v]: the flip written twice in the source, on a
    detection row for plotting ([image.height - d['y']]) and on a clicked
    ordinate for reporting ([image.height - click_data.get('y', 0)]). *)
Definition flip_y (image : Image.t) (v : num) : result num :=
  sub (Int (Image.height image)) v.

(** [d.get('conf', 1.0)]. *)
Definition confidence (d : Detection.t) : num :=
  match Detection.conf d with
  | Some c => c
  | None => Float 1%float
  end.

(** [4 + c*6]. *)
Definition size_of_confidence (c : num) : result num :=
  s <- mul c (Int 6) ;; add (Int 4) s.

(** [f"Conf: {c:.3f}"]. *)
Definition hover_text (c : num) : result string :=
  s <- format_3f c ;; Ok ("Conf: " ++ s)%string.

(** The check [go.Scatter] makes on an entry of [marker.size]: a number
    [e] with [0 <= e <= inf], which a negative number and a NaN fail. *)
Definition valid_marker_size (s : num) : bool :=
  match s with
  | Int z => 0 <=? z
  | Float f => PrimFloat.leb 0 f
  end.

(** The arguments of [go.Scatter] in the order they are evaluated, then
    the constructor's check, which raises [ValueError]. *)
Definition scatter_trace (image : Image.t) (detections : list Detection.t)
  : result Trace :=
  let xs := map Detection.x detections in
  ys <- traverse (fun d => flip_y image (Detection.y d)) detections ;;
  let confidences := map confidence detections in
  let cols := map marker_color detections in
  sizes <- traverse size_of_confidence confidences ;;
  texts <- traverse hover_text confidences ;;
  if forallb valid_marker_size sizes
  then Ok (mkTrace xs ys sizes cols texts (map Detection.y detections))
  else Raise ValueError.

(** The figure: the trace when there are detections, then
    [fig.update_layout(height=height)], which accepts a number from 10
    on and raises [ValueError] below. *)
Definition build_figure (image : Image.t) (detections : list Detection.t)
    (height : Z) : result (option Trace) :=
  trace <- match detections with
           | [] => Ok None
           | _ :: _ => t <- scatter_trace image detections ;; Ok (Some t)
           end ;;
  if 10 <=? height then Ok trace else Raise ValueError.

Definition empty_result : Result := mkResult None None None.

(** The click handling under [if enable_editing:]. On a truthy
    [last_clicked] without [get], [click_data.get('x', 0)] raises
    [AttributeError]. *)
Definition handle_click (image : Image.t) (ui : UI) : result Result :=
  match clicked_data ui with
  | LastClicked (Some ((_ :: _) as click_data)) =>
      let cx := dict_get click_data "x" (Int 0) in
      cy <- flip_y image (dict_get click_data "y" (Int 0)) ;;
      if add_mode ui then Ok (mkResult (Some (cx, cy)) (Some "add") None)
      else if remove_mode ui then Ok (mkResult (Some (cx, cy)) (Some "remove") None)
      else Ok empty_result
  | LastClickedNotDict => Raise AttributeError
  | Falsy | NoLastClicked | LastClicked _ => Ok empty_result
  end.

(** [display_image_with_points]: the trace that is plotted ([None] when
    there is no detection) and the returned dictionary. *)
Definition display_image_with_points (image : Image.t)
    (detections : list Detection.t) (height : Z) (enable_editing : bool)
    (ui : UI) : result (option Trace * Result) :=
  trace <- build_figure image detections height ;;
  res <- (if enable_editing then handle_click image ui else Ok empty_result) ;;
  Ok (trace, res).

End InteractiveImageEditor.

(* ================================================================== *)
(** * class ROISelector *)
(* ================================================================== *)

(** An object of the canvas' [json_data["objects"]]. *)
Module CanvasObject.
Record t : Set := mk {
  type : string;
  left : num;
  top : num;
  width : num;
  height : num
}.
End CanvasObject.

Module ROISelector.

(** What [st_canvas] returned: [json_data] ([None], or its ["objects"]
    list) and [image_data.shape[0]], [image_data.shape[1]]. *)
Record CanvasResult : Set := mkCanvas {
  json_data : option (list CanvasObject.t);
  shape0 : Z;
  shape1 : Z
}.

(** The [width=] argument of [st_canvas]. *)
Definition canvas_width (image : Image.t) (height : Z) : result num :=
  if Image.height image >? height then
    q <- int_truediv height (Image.height image) ;;
    mul (Int (Image.width image)) (Float q)
  else Ok (Int (Image.width image)).

(** [int(v * scale)]: a canvas coordinate to an image pixel. *)
Definition to_image (v : num) (scale : float) : result Z :=
  p <- mul v (Float scale) ;; int_of_num p.

(** The conversion under [if rect["type"] == "rect":], for a canvas whose
    [image_data.shape] starts with [(shape0, shape1)]. *)
Definition remap (image : Image.t) (shape0 shape1 : Z) (rect : CanvasObject.t)
  : result ROI :=
  scale_x <- int_truediv (Image.width image) shape1 ;;
  scale_y <- int_truediv (Image.height image) shape0 ;;
  x1 <- to_image (CanvasObject.left rect) scale_x ;;
  y1 <- to_image (CanvasObject.top rect) scale_y ;;
  x2 <- (r <- add (CanvasObject.left rect) (CanvasObject.width rect) ;;
         to_image r scale_x) ;;
  y2 <- (b <- add (CanvasObject.top rect) (CanvasObject.height rect) ;;
         to_image b scale_y) ;;
  Ok (x1, y1, x2, y2).

(** The extraction after the canvas call; [objects[-1]] is the last
    element of the non-empty list. *)
Definition extract_roi (image : Image.t) (canvas_result : CanvasResult)
  : result (option ROI) :=
  match json_data canvas_result with
  | None => Ok None
  | Some objects =>
      match objects with
      | [] => Ok None
      | first :: _ =>
          let rect := last objects first in
          if String.eqb (CanvasObject.type rect) "rect" then
            r <- remap image (shape0 canvas_result) (shape1 canvas_result) rect ;;
            Ok (Some r)
          else Ok None
      end
  end.

(** [draw_roi_selector]: [st_canvas] is the widget, a function of the
    [width] and [height] it is called with. *)
Definition draw_roi_selector (image : Image.t) (height : Z)
    (st_canvas : num -> Z -> CanvasResult) : result (option ROI) :=
  w <- canvas_width image height ;;
  extract_roi image (st_canvas w height).

End ROISelector.

(* ================================================================== *)
(** * class ManualPointEditor *)
(* ================================================================== *)

Module ManualPointEditor.

(** The widget values of one rerun: the two number inputs, the two
    buttons, and the position chosen in the select box. *)
Record UI : Set := mkUI {
  add_x : num;
  add_y : num;
  add_btn : bool;
  remove_select : nat;
  remove_btn : bool
}.

(** The returned dictionary [{"action": ..., "point": ..., "index": ...}]. *)
Record Result : Set := mkResult {
  action : option string;
  point : option (num * num);
  index : option Z
}.

(** [f"Point {i+1}: ({int(d['x'])}, {int(d['y'])})"] once the two [int]
    calls have returned [xi] and [yi]. *)
Definition format_label (i : nat) (xi yi : Z) : string :=
  ("Point " ++ str_of_int (Z.of_nat i + 1) ++ ": (" ++ str_of_int xi
     ++ ", " ++ str_of_int yi ++ ")")%string.

Definition label (i : nat) (d : Detection.t) : result string :=
  xi <- int_of_num (Detection.x d) ;;
  yi <- int_of_num (Detection.y d) ;;
  Ok (format_label i xi yi).

(** [[label(i, d) for i, d in enumerate(detections)]], counting from [i]. *)
Fixpoint point_options_from (i : nat) (detections : list Detection.t)
  : result (list string) :=
  match detections with
  | [] => Ok []
  | d :: ds =>
      l <- label i d ;;
      ls <- point_options_from (S i) ds ;;
      Ok (l :: ls)
  end.

Definition point_options (detections : list Detection.t) : result (list string) :=
  point_options_from 0 detections.

(** [int(selected_point.split(":")[0].split()[1]) - 1]. *)
Definition parse_index (selected_point : string) : result Z :=
  head <- Py.index (split_on ":" selected_point) 0 ;;
  word <- Py.index (split_ws head) 1 ;;
  n <- int_of_str word ;;
  Ok (n - 1).

(** [st.selectbox]: the option at the chosen position, [None] when there
    is none. *)
Definition selectbox (options : list string) (pos : nat) : option string :=
  nth_error options pos.

Definition empty_result : Result := mkResult None None None.

(** The add flow (first column). *)
Definition add_flow (ui : UI) (res : Result) : Result :=
  if add_btn ui
  then mkResult (Some "add") (Some (add_x ui, add_y ui)) (index res)
  else res.

(** The remove flow (second column). *)
Definition remove_flow (detections : list Detection.t) (ui : UI) (res : Result)
  : result Result :=
  match detections with
  | [] => Ok res
  | _ :: _ =>
      options <- point_options detections ;;
      match selectbox options (remove_select ui) with
      | Some selected_point =>
          if remove_btn ui && truthy_str selected_point then
            point_index <- parse_index selected_point ;;
            Ok (mkResult (Some "remove") (point res) (Some point_index))
          else Ok res
      | None => Ok res
      end
  end.

Definition edit_points_interface (detections : list Detection.t)
    (image_size : Z * Z) (ui : UI) : result Result :=
  remove_flow detections ui (add_flow ui empty_result).

End ManualPointEditor.

(* ================================================================== *)
(** * Vocabulary of the specification *)
(* ================================================================== *)

(** The image height converts to a float, which holds for every size PIL
    can represent. *)
Definition height_in_float_range (image : Image.t) : Prop :=
  Z.abs (Image.height image) < float_of_int_limit.

(** No click reached the handler: the chart value is falsy, has no
    [last_clicked], or its [last_clicked] is [None] or empty. *)
Definition no_click (ui : InteractiveImageEditor.UI) : Prop :=
  match InteractiveImageEditor.clicked_data ui with
  | InteractiveImageEditor.Falsy
  | InteractiveImageEditor.NoLastClicked
  | InteractiveImageEditor.LastClicked None
  | InteractiveImageEditor.LastClicked (Some []) => True
  | InteractiveImageEditor.LastClicked (Some (_ :: _))
  | InteractiveImageEditor.LastClickedNotDict => False
  end.

(** Neither the add nor the remove trigger fired. *)
Definition no_mode (ui : InteractiveImageEditor.UI) : Prop :=
  InteractiveImageEditor.add_mode ui = false
  /\ InteractiveImageEditor.remove_mode ui = false.

(** The colour roles of the specification and the palette the code uses. *)
Inductive ColorRole : Set := Added | Grid | Roi | Default.

Definition palette (r : ColorRole) : string :=
  match r with
  | Added => "green"
  | Grid => "red"
  | Roi => "blue"
  | Default => "red"
  end.

Definition is_manual (d : Detection.t) : bool :=
  match Detection.manual d with Some b => b | None => false end.

Definition method_of (d : Detection.t) : string :=
  match Detection.method d with Some m => m | None => "" end.

(** The precedence as the specification words it: manual flag, then
    "grid", then "roi", then the default. *)
Definition role_spec (d : Detection.t) : ColorRole :=
  if is_manual d then Added
  else if contains "grid" (method_of d) then Grid
  else if contains "roi" (method_of d) then Roi
  else Default.

(** [z] is [trunc(v * scale)]: the product as Python computes it, cut
    toward zero by [int]. *)
Definition trunc_scaled (v : num) (scale : float) (z : Z) : Prop :=
  exists p, mul v (Float scale) = Ok p /\ int_of_num p = Ok z.

(** [r] is a nearest integer of [q] (either neighbour on a tie). *)
Definition nearest_int (q : Q) (r : Z) : Prop :=
  (Qabs (inject_Z r - q) <= 1 # 2)%Q.

(** The exact value of the product [v * scale] that the code computes. *)
Definition scaled_value (v : num) (scale : float) : option Q :=
  match mul v (Float scale) with
  | Ok p => value p
  | Raise _ => None
  end.

(** The scaled extent [ext * scale] as a real number: the product of the
    two exact values, not rounded. *)
Definition exact_extent (ext : num) (scale : float) : option Q :=
  match value ext, float_value scale with
  | Some w, Some s => Some (w * s)%Q
  | _, _ => None
  end.

(** One axis of a rectangle, from [lo] over [ext], lies on the canvas and
    is well conditioned: both scaled edges are finite and non-negative,
    and their difference is within 1/2 of the exact scaled extent [e]
    (the binary64 rounding of the products stays below half a pixel). *)
Definition on_canvas_span (lo ext : num) (scale : float) (e : Q) : Prop :=
  exists hi a b,
    add lo ext = Ok hi
    /\ scaled_value lo scale = Some a
    /\ scaled_value hi scale = Some b
    /\ (0 <= a)%Q /\ (0 <= b)%Q
    /\ exact_extent ext scale = Some e
    /\ (Qabs (b - a - e) < 1 # 2)%Q.

(** The width the specification gives an image taller than the display
    height, as an exact rational: [imageWidth * (height / imageHeight)]. *)
Definition exact_width (image : Image.t) (height : Z) : Q :=
  (inject_Z (Image.width image)
   * (inject_Z height / inject_Z (Image.height image)))%Q.

(** A shift record of the rounding of binary64 stands for the number [n]
    after [j] halvings: twice [n] is the kept mantissa and round bit times
    [2 ^ j] plus the dropped part [t], and the sticky bit says whether
    anything was dropped. *)
Definition shr_inv (n j : Z) (mrs : shr_record) : Prop :=
  exists t, 0 <= t < 2 ^ j
            /\ 2 * n = (2 * shr_m mrs + Z.b2z (shr_r mrs)) * 2 ^ j + t
            /\ (shr_s mrs = true <-> t <> 0)
            /\ 0 <= shr_m mrs.

(* ================================================================== *)
(** * Sample runs *)
(* ================================================================== *)

Example int_truediv_800_600 : int_truediv 800 600 = Ok (800 / 600)%float.
Proof. vm_compute. reflexivity. Qed.

(** True division agrees with binary64 division where both operands
    convert exactly, rounds ties to even past [2^53], and raises where
    Python does. *)
Example int_truediv_samples :
  int_truediv 1 49 = Ok (1 / 49)%float
  /\ int_truediv (-7) 3 = Ok (-7 / 3)%float
  /\ int_truediv 0 (-5) = Ok (-0)%float
  /\ int_truediv (2 ^ 54 + 2) 2 = Ok 9007199254740992%float
  /\ int_truediv (2 ^ 54 + 6) 2 = Ok 9007199254740996%float
  /\ int_truediv 1 (2 ^ 1074) = Ok 4.9406564584124654e-324%float
  /\ int_truediv 1 (2 ^ 1075) = Ok 0%float
  /\ int_truediv (10 ^ 400) 1 = Raise OverflowError
  /\ int_truediv 5 0 = Raise ZeroDivisionError.
Proof. vm_compute. repeat split; reflexivity. Qed.

Example float_of_int_samples :
  float_of_int 600 = Ok 600%float
  /\ float_of_int (2 ^ 53 + 1) = Ok 9007199254740992%float
  /\ float_of_int (- (2 ^ 53 + 3)) = Ok (-9007199254740996)%float
  /\ float_of_int (2 ^ 1024) = Raise OverflowError.
Proof. vm_compute. repeat split; reflexivity. Qed.

Example int_of_num_samples :
  int_of_num (Float 2.75) = Ok 2
  /\ int_of_num (Float (-2.75)) = Ok (-2)
  /\ int_of_num (Float infinity) = Raise OverflowError
  /\ int_of_num (Float nan) = Raise ValueError.
Proof. vm_compute. repeat split; reflexivity. Qed.

Example str_int_samples :
  str_of_int 0 = "0" /\ str_of_int (-305) = "-305"
  /\ int_of_str " -1_000 " = Ok (-1000)
  /\ int_of_str "1__0" = Raise ValueError
  /\ split_on ":" "Point 3: (10, 20)" = ["Point 3"; " (10, 20)"]
  /\ split_ws "  a  bc d " = ["a"; "bc"; "d"].
Proof. vm_compute. repeat split; reflexivity. Qed.

Example spec_example_800x600 :
  InteractiveImageEditor.display_image_with_points (Image.mk 800 600)
    [Detection.mk (Int 100) (Int 500) (Some (Float 0.8)) None None] 600 true
    (InteractiveImageEditor.mkUI
       (InteractiveImageEditor.LastClicked (Some [("x", Int 100); ("y", Int 100)]))
       false true false)
  = Ok (Some (InteractiveImageEditor.mkTrace [Int 100] [Int 100]
                [Float 8.8000000000000007] ["red"] ["Conf: 0.800"] [Int 500]),
        InteractiveImageEditor.mkResult (Some (Int 100, Int 500)) (Some "remove") None).
Proof. vm_compute. reflexivity. Qed.

(** The figure is built before any widget value is read: a confidence
    no float can hold (line 83), a negative or NaN marker size
    ([go.Scatter]) and a height below 10 ([update_layout]) raise there,
    with editing enabled or not. *)
Example figure_raises_samples :
  InteractiveImageEditor.display_image_with_points (Image.mk 800 600)
    [Detection.mk (Int 100) (Int 500) (Some (Int (10 ^ 400))) None None] 600 false
    (InteractiveImageEditor.mkUI InteractiveImageEditor.Falsy false false false)
  = Raise OverflowError
  /\ InteractiveImageEditor.display_image_with_points (Image.mk 800 600)
       [Detection.mk (Int 100) (Int 500) (Some (Int (-1))) None None] 600 false
       (InteractiveImageEditor.mkUI InteractiveImageEditor.Falsy false false false)
     = Raise ValueError
  /\ InteractiveImageEditor.display_image_with_points (Image.mk 800 600)
       [Detection.mk (Int 100) (Int 500) (Some (Float nan)) None None] 600 true
       (InteractiveImageEditor.mkUI InteractiveImageEditor.Falsy false false false)
     = Raise ValueError
  /\ InteractiveImageEditor.display_image_with_points (Image.mk 800 600)
       [Detection.mk (Int 100) (Int 500) (Some (Float 0.8)) None None] 5 true
       (InteractiveImageEditor.mkUI InteractiveImageEditor.Falsy false false false)
     = Raise ValueError.
Proof. vm_compute. repeat split; reflexivity. Qed.

(** [format(c, ".3f")] rounds the exact value half to even, keeps the
    sign of a negative zero and prints the specials as Python does. *)
Example format_3f_samples :
  format_3f (Float 0.8) = Ok "0.800"
  /\ format_3f (Float 0.0625) = Ok "0.062"
  /\ format_3f (Float 0.0005) = Ok "0.001"
  /\ format_3f (Float 999.9995) = Ok "1000.000"
  /\ format_3f (Float (-1e-5)) = Ok "-0.000"
  /\ format_3f (Float nan) = Ok "nan"
  /\ format_3f (Float neg_infinity) = Ok "-inf"
  /\ format_3f (Int (-3)) = Ok "-3.000"
  /\ format_3f (Int (10 ^ 400)) = Raise OverflowError.
Proof. vm_compute. repeat split; reflexivity. Qed.

Example roi_example_800x600 :
  ROISelector.draw_roi_selector (Image.mk 800 600) 450
    (fun _ _ => ROISelector.mkCanvas
       (Some [CanvasObject.mk "circle" (Int 1) (Int 1) (Int 5) (Int 5);
              CanvasObject.mk "rect" (Float 10.5) (Int 20) (Float 100.25) (Int 50)])
       450 600)
  = Ok (Some (14, 26, 147, 93)).
Proof. vm_compute. reflexivity. Qed.

Example editor_example_remove :
  ManualPointEditor.edit_points_interface
    [Detection.mk (Int 100) (Int 500) None None None;
     Detection.mk (Float 10.5) (Float 100.1) None None None]
    (800, 600) (ManualPointEditor.mkUI (Int 0) (Int 0) false 1 true)
  = Ok (ManualPointEditor.mkResult (Some "remove") None (Some 1)).
Proof. vm_compute. reflexivity. Qed.

(* ================================================================== *)
(** * Lemmas on the Python primitives *)
(* ================================================================== *)

Lemma bind_ok {A B : Type} (c : result A) (k : A -> result B) (b : B) :
  Py.bind c k = Ok b <-> exists a, c = Ok a /\ k a = Ok b.
Proof.
  destruct c as [a | e]; simpl; split.
  - intros H. exists a. auto.
  - intros [a' [Ha Hk]]. inversion Ha. subst. exact Hk.
  - discriminate.
  - intros [a' [Ha _]]. discriminate.
Qed.

Lemma traverse_total {A B : Type} (f : A -> result B) (xs : list A) :
  (forall a, In a xs -> exists b, f a = Ok b) ->
  exists ys, traverse f xs = Ok ys /\ List.length ys = List.length xs.
Proof.
  induction xs as [| a xs IH]; intros Hf; simpl.
  - exists []. auto.
  - destruct (Hf a (or_introl eq_refl)) as [b Hb].
    destruct IH as [ys [Hys Hlen]].
    + intros a' Ha'. apply Hf. right. exact Ha'.
    + rewrite Hb, Hys. simpl. exists (b :: ys). simpl. auto.
Qed.

Lemma traverse_nth {A B : Type} (f : A -> result B) (xs : list A) (ys : list B) :
  traverse f xs = Ok ys ->
  forall i a, nth_error xs i = Some a ->
  exists b, nth_error ys i = Some b /\ f a = Ok b.
Proof.
  revert ys. induction xs as [| a0 xs IH]; intros ys H i a Hi.
  - destruct i; discriminate.
  - simpl in H. apply bind_ok in H. destruct H as [b0 [Hb0 H]].
    apply bind_ok in H. destruct H as [ys' [Hys' H]].
    inversion H. subst ys. clear H.
    destruct i as [| i]; simpl in *.
    + inversion Hi. subst a0. exists b0. auto.
    + eapply IH; eauto.
Qed.

Lemma float_of_int_in_range (z : Z) :
  Z.abs z < float_of_int_limit -> float_of_int z = Ok (Z2float z).
Proof.
  intros H. unfold float_of_int.
  destruct (Z.ltb_spec (Z.abs z) float_of_int_limit) as [_ | Hge]; [reflexivity | lia].
Qed.

Lemma float_of_int_4 : float_of_int 4 = Ok (Z2float 4).
Proof. apply float_of_int_in_range. reflexivity. Qed.

Lemma float_of_int_6 : float_of_int 6 = Ok (Z2float 6).
Proof. apply float_of_int_in_range. reflexivity. Qed.

Lemma sub_int_int (a b : Z) : sub (Int a) (Int b) = Ok (Int (a - b)).
Proof. reflexivity. Qed.

Lemma sub_int_total (h : Z) (v : num) :
  Z.abs h < float_of_int_limit -> exists r, sub (Int h) v = Ok r.
Proof.
  intros Hh. destruct v as [z | f].
  - exists (Int (h - z)). reflexivity.
  - exists (Float (PrimFloat.sub (Z2float h) f)).
    unfold sub, as_float. rewrite (float_of_int_in_range h Hh). reflexivity.
Qed.

(** [int(n)] of a number with a non-negative value is its floor. *)
Lemma float_trunc_floor (f : float) (z : Z) (q : Q) :
  float_trunc f = Ok z -> float_value f = Some q -> (0 <= q)%Q ->
  (inject_Z z <= q)%Q /\ (q < inject_Z z + 1)%Q.
Proof.
  unfold float_trunc, float_value.
  destruct (Prim2SF f) as [s | s | | s m e]; try discriminate.
  - intros Hz Hq _. inversion Hz. inversion Hq. subst. split.
    + apply Qle_refl.
    + reflexivity.
  - destruct (Z.leb_spec 0 e) as [He | He].
    + assert (Hm : 0 < Z.pos m * 2 ^ e).
      { apply Z.mul_pos_pos; [lia | apply Z.pow_pos_nonneg; lia]. }
      generalize dependent (Z.pos m * 2 ^ e). intros v Hv [= <-] [= <-] Hpos.
      destruct s; unfold Qle, Qlt, Qplus, Qopp, inject_Z in *;
        cbn [Qnum Qden] in *; lia.
    + assert (Hd : 0 < 2 ^ (- e)) by (apply Z.pow_pos_nonneg; lia).
      pose proof (Z.div_mod (Z.pos m) (2 ^ (- e)) ltac:(lia)) as Hdm.
      pose proof (Z.mod_pos_bound (Z.pos m) (2 ^ (- e)) Hd) as Hb.
      assert (Hid : Z.pos (Z.to_pos (2 ^ (- e))) = 2 ^ (- e)) by (apply Z2Pos.id; exact Hd).
      generalize dependent (Z.pos m / 2 ^ (- e)).
      generalize dependent (Z.pos m mod 2 ^ (- e)).
      generalize dependent (Z.to_pos (2 ^ (- e))).
      generalize dependent (2 ^ (- e)).
      intros d Hd p Hid r Hr k Hdm [= <-] [= <-] Hpos.
      destruct s; unfold Qle, Qlt, Qplus, Qopp, inject_Z in *;
        cbn [Qnum Qden] in *; nia.
Qed.

Lemma int_of_num_floor (n : num) (z : Z) (q : Q) :
  int_of_num n = Ok z -> value n = Some q -> (0 <= q)%Q ->
  (inject_Z z <= q)%Q /\ (q < inject_Z z + 1)%Q.
Proof.
  destruct n as [v | f]; simpl.
  - intros Hz Hq _. inversion Hz. inversion Hq. subst. split.
    + apply Qle_refl.
    + rewrite <- (Qplus_0_r (inject_Z z)) at 1.
      apply Qplus_lt_r. reflexivity.
  - apply float_trunc_floor.
Qed.

(* ================================================================== *)
(** * The point overlay *)
(* ================================================================== *)

Section Overlay.

Import InteractiveImageEditor.

Lemma flip_y_total (image : Image.t) (v : num) :
  height_in_float_range image -> exists r, flip_y image v = Ok r.
Proof. intros H. apply sub_int_total. exact H. Qed.

Lemma handle_click_no_click (image : Image.t) (ui : UI) :
  no_click ui -> handle_click image ui = Ok empty_result.
Proof.
  unfold no_click, handle_click.
  destruct (clicked_data ui) as [| | [[| p l] |] |]; intros H;
    try reflexivity; contradiction.
Qed.

Lemma handle_click_no_mode (image : Image.t) (ui : UI) :
  height_in_float_range image -> no_mode ui ->
  clicked_data ui <> LastClickedNotDict ->
  handle_click image ui = Ok empty_result.
Proof.
  intros Hh [Ha Hr] Hdict. unfold handle_click.
  destruct (clicked_data ui) as [| | [[| p l] |] |]; try reflexivity;
    [| contradiction].
  destruct (flip_y_total image (dict_get (p :: l) "y" (Int 0)) Hh) as [cy Hcy].
  rewrite Hcy. simpl. rewrite Ha, Hr. reflexivity.
Qed.

Lemma handle_click_add (image : Image.t) (ui : UI) (click : list (string * num))
    (cy : num) :
  clicked_data ui = LastClicked (Some click) -> click <> [] ->
  add_mode ui = true ->
  flip_y image (dict_get click "y" (Int 0)) = Ok cy ->
  handle_click image ui
  = Ok (mkResult (Some (dict_get click "x" (Int 0), cy)) (Some "add") None).
Proof.
  intros Hc Hne Ha Hcy. unfold handle_click. rewrite Hc.
  destruct click as [| p l]; [contradiction |].
  rewrite Hcy. simpl. rewrite Ha. reflexivity.
Qed.

Lemma handle_click_remove (image : Image.t) (ui : UI) (click : list (string * num))
    (cy : num) :
  clicked_data ui = LastClicked (Some click) -> click <> [] ->
  add_mode ui = false -> remove_mode ui = true ->
  flip_y image (dict_get click "y" (Int 0)) = Ok cy ->
  handle_click image ui
  = Ok (mkResult (Some (dict_get click "x" (Int 0), cy)) (Some "remove") None).
Proof.
  intros Hc Hne Ha Hr Hcy. unfold handle_click. rewrite Hc.
  destruct click as [| p l]; [contradiction |].
  rewrite Hcy. simpl. rewrite Ha, Hr. reflexivity.
Qed.

(** A trace that is built went through every step of [scatter_trace]. *)
Lemma scatter_trace_ok (image : Image.t) (detections : list Detection.t)
    (t : Trace) :
  scatter_trace image detections = Ok t ->
  exists ys sizes texts,
    traverse (fun d => flip_y image (Detection.y d)) detections = Ok ys
    /\ traverse size_of_confidence (map confidence detections) = Ok sizes
    /\ traverse hover_text (map confidence detections) = Ok texts
    /\ forallb valid_marker_size sizes = true
    /\ t = mkTrace (map Detection.x detections) ys sizes
             (map marker_color detections) texts (map Detection.y detections).
Proof.
  unfold scatter_trace. intros H.
  apply bind_ok in H. destruct H as [ys [Hys H]].
  apply bind_ok in H. destruct H as [ss [Hss H]].
  apply bind_ok in H. destruct H as [ts [Hts H]].
  destruct (forallb valid_marker_size ss) eqn:Hv; [| discriminate].
  injection H as <-. exists ys, ss, ts. repeat split; assumption.
Qed.

Lemma scatter_trace_colors (image : Image.t) (detections : list Detection.t)
    (t : Trace) :
  scatter_trace image detections = Ok t ->
  colors t = map marker_color detections.
Proof.
  intros H. destruct (scatter_trace_ok _ _ _ H) as [ys [ss [ts [_ [_ [_ [_ ->]]]]]]].
  reflexivity.
Qed.

Lemma scatter_trace_coords (image : Image.t) (detections : list Detection.t)
    (t : Trace) :
  scatter_trace image detections = Ok t ->
  x_coords t = map Detection.x detections
  /\ traverse (fun d => flip_y image (Detection.y d)) detections = Ok (y_coords t).
Proof.
  intros H. destruct (scatter_trace_ok _ _ _ H) as [ys [ss [ts [Hys [_ [_ [_ ->]]]]]]].
  split; [reflexivity | exact Hys].
Qed.

Lemma display_with_figure (image : Image.t) (detections : list Detection.t)
    (height : Z) (enable_editing : bool) (ui : UI) (trace : option Trace) :
  build_figure image detections height = Ok trace ->
  display_image_with_points image detections height enable_editing ui
  = (res <- (if enable_editing then handle_click image ui else Ok empty_result) ;;
     Ok (trace, res)).
Proof. intros H. unfold display_image_with_points. rewrite H. reflexivity. Qed.

(** X1. A click on the marker of a detection with an [int] row, in add or
    remove mode, reports that detection's own coordinates, tagged "add"
    when the add trigger is set and "remove" otherwise. *)
Lemma click_on_marker_int (image : Image.t) (detections : list Detection.t)
    (t : Trace) (i : nat) (d : Detection.t) (yv : Z) (ui : UI) :
  scatter_trace image detections = Ok t ->
  nth_error detections i = Some d ->
  Detection.y d = Int yv ->
  exists px py,
    nth_error (x_coords t) i = Some px
    /\ nth_error (y_coords t) i = Some py
    /\ (clicked_data ui = LastClicked (Some [("x", px); ("y", py)]) ->
        add_mode ui = true \/ remove_mode ui = true ->
        handle_click image ui
        = Ok (mkResult (Some (Detection.x d, Int yv))
                (Some (if add_mode ui then "add" else "remove")) None)).
Proof.
  intros Ht Hi Hy.
  destruct (scatter_trace_coords _ _ _ Ht) as [Hx Hys].
  destruct (traverse_nth _ _ _ Hys i d Hi) as [py [Hpy Hflip]].
  exists (Detection.x d), py. split; [| split].
  - rewrite Hx. apply map_nth_error. exact Hi.
  - exact Hpy.
  - intros Hc Hmode.
    rewrite Hy in Hflip. unfold flip_y in Hflip. simpl in Hflip.
    inversion Hflip. subst py. clear Hflip.
    assert (Hback : flip_y image
                      (dict_get [("x", Detection.x d);
                                 ("y", Int (Image.height image - yv))] "y" (Int 0))
                    = Ok (Int yv)).
    { simpl. unfold flip_y. rewrite sub_int_int. f_equal. f_equal. lia. }
    destruct (add_mode ui) eqn:Ha.
    + apply (handle_click_add image ui _ (Int yv) Hc);
        [discriminate | exact Ha | exact Hback].
    + destruct Hmode as [Hm | Hm]; [discriminate |].
      apply (handle_click_remove image ui _ (Int yv) Hc);
        [discriminate | exact Ha | exact Hm | exact Hback].
Qed.

(** C1 (amended to integer rows). For every image and every [int] row
    [yv], plotting the row ([image.height - yv]) and mapping the plotted
    ordinate back through the click transform ([image.height - clicked])
    returns exactly [yv]; neither step raises. *)
Theorem flip_round_trip_int (image : Image.t) (yv : Z) :
  exists plotted,
    flip_y image (Int yv) = Ok plotted
    /\ flip_y image plotted = Ok (Int yv)
    /\ Py.eqb (Int yv) (Int yv) = true.
Proof.
  exists (Int (Image.height image - yv)). unfold flip_y.
  rewrite !sub_int_int. repeat split.
  - f_equal. f_equal. lia.
  - apply Z.eqb_refl.
Qed.

(** C1 fails on a [float] row: on a 800x600 image the row 100.1, which
    lies in [0, 600], is plotted at 499.9 and a click there reports
    100.10000000000002, which [==] tells apart from 100.1. *)
Lemma flip_round_trip_float_differs :
  flip_y (Image.mk 800 600) (Float 100.1) = Ok (Float 499.9)
  /\ flip_y (Image.mk 800 600) (Float 499.9) = Ok (Float 100.10000000000002)
  /\ Py.eqb (Float 100.10000000000002) (Float 100.1) = false
  /\ PrimFloat.leb 0 100.1 && PrimFloat.leb 100.1 600 = true.
Proof. vm_compute. repeat split; reflexivity. Qed.

(** Some float rows do come back exactly: 250.3 on the same image. *)
Example flip_round_trip_float_250_3 :
  flip_y (Image.mk 800 600) (Float 250.3) = Ok (Float 349.7)
  /\ flip_y (Image.mk 800 600) (Float 349.7) = Ok (Float 250.3).
Proof. vm_compute. split; reflexivity. Qed.

(** C4. The colour of a marker follows the precedence manual flag, then
    "grid" in the method, then "roi" in the method, then the default; a
    manual detection whose method is "grid" gets the colour of added
    points, which is not the grid colour. *)
Theorem marker_color_precedence (d : Detection.t) (x y : num) (c : option num) :
  marker_color d = palette (role_spec d)
  /\ marker_color (Detection.mk x y c (Some true) (Some "grid")) = palette Added
  /\ palette Added <> palette Grid.
Proof.
  split; [| split].
  - unfold marker_color, role_spec, is_manual, method_of.
    destruct (Detection.manual d) as [[|] |]; try reflexivity;
      destruct (contains "grid" _); try reflexivity;
      destruct (contains "roi" _); reflexivity.
  - reflexivity.
  - discriminate.
Qed.

(** C9 (the defect). On the value [st.plotly_chart] really returns (a
    truthy object whose made-up [last_clicked] has no [get]) a rerun with
    editing enabled raises [AttributeError] although no click occurred and
    no trigger fired; the dictionary of [None]s is never returned. *)
Theorem no_click_on_streamlit_chart_raises :
  display_image_with_points (Image.mk 800 600)
    [Detection.mk (Int 100) (Int 500) (Some (Float 0.8)) None None] 600 true
    (mkUI LastClickedNotDict false false false)
  = Raise AttributeError
  /\ display_image_with_points (Image.mk 800 600) [] 600 true
       (mkUI LastClickedNotDict false false true)
     = Raise AttributeError.
Proof. vm_compute. split; reflexivity. Qed.

(** X16. What the click handling does on the values its guards expect:
    once the figure is built, a call in which editing is disabled, or no
    click reached the handler, or a click dictionary arrived while neither
    the add nor the remove trigger fired, returns [clicked_point],
    [action] and [roi] all [None]. *)
Theorem no_interaction_returns_empty (image : Image.t)
    (detections : list Detection.t) (height : Z) (enable_editing : bool)
    (ui : UI) (trace : option Trace) :
  build_figure image detections height = Ok trace ->
  enable_editing = false
  \/ no_click ui
  \/ (no_mode ui /\ clicked_data ui <> LastClickedNotDict
      /\ height_in_float_range image) ->
  display_image_with_points image detections height enable_editing ui
  = Ok (trace, mkResult None None None).
Proof.
  intros Hfig Hcase. rewrite (display_with_figure _ _ _ _ _ _ Hfig).
  destruct enable_editing.
  - destruct Hcase as [Hoff | [Hnc | [Hnm [Hdict Hh]]]].
    + discriminate.
    + rewrite (handle_click_no_click image ui Hnc). reflexivity.
    + rewrite (handle_click_no_mode image ui Hh Hnm Hdict). reflexivity.
  - reflexivity.
Qed.

Lemma no_interaction_returns_empty_witness :
  display_image_with_points (Image.mk 800 600)
    [Detection.mk (Int 100) (Int 500) (Some (Float 0.8)) None None] 600 true
    (mkUI (LastClicked (Some [("x", Int 100); ("y", Int 100)])) false false true)
  = Ok (Some (mkTrace [Int 100] [Int 100] [Float 8.8000000000000007] ["red"]
                ["Conf: 0.800"] [Int 500]),
        mkResult None None None).
Proof.
  apply (no_interaction_returns_empty (Image.mk 800 600)
           [Detection.mk (Int 100) (Int 500) (Some (Float 0.8)) None None] 600 true
           (mkUI (LastClicked (Some [("x", Int 100); ("y", Int 100)])) false false true)).
  - vm_compute. reflexivity.
  - right. right. split; [split; reflexivity |].
    split; [discriminate | unfold height_in_float_range; reflexivity].
Defined.

(** C10. When the figure is built, a click dictionary reached the handler
    and both the add and the remove trigger are set, the add branch wins:
    the returned action is "add" and the clicked point is the click's [x]
    with its flipped [y]. *)
Theorem add_wins_over_remove (image : Image.t) (detections : list Detection.t)
    (height : Z) (ui : UI) (click : list (string * num)) (trace : option Trace) :
  build_figure image detections height = Ok trace ->
  height_in_float_range image ->
  clicked_data ui = LastClicked (Some click) ->
  click <> [] ->
  add_mode ui = true ->
  remove_mode ui = true ->
  exists cy,
    flip_y image (dict_get click "y" (Int 0)) = Ok cy
    /\ display_image_with_points image detections height true ui
       = Ok (trace, mkResult (Some (dict_get click "x" (Int 0), cy)) (Some "add") None)
    /\ Some "add" <> Some "remove".
Proof.
  intros Hfig Hh Hc Hne Ha _.
  destruct (flip_y_total image (dict_get click "y" (Int 0)) Hh) as [cy Hcy].
  exists cy. rewrite (display_with_figure _ _ _ _ _ _ Hfig).
  rewrite (handle_click_add image ui click cy Hc Hne Ha Hcy).
  repeat split; [exact Hcy | discriminate].
Qed.

Lemma add_wins_over_remove_witness :
  exists cy,
    flip_y (Image.mk 800 600)
      (dict_get [("x", Int 100); ("y", Int 100)] "y" (Int 0)) = Ok cy
    /\ display_image_with_points (Image.mk 800 600)
         [Detection.mk (Int 100) (Int 500) (Some (Float 0.8)) None None] 600 true
         (mkUI (LastClicked (Some [("x", Int 100); ("y", Int 100)])) true true false)
       = Ok (Some (mkTrace [Int 100] [Int 100] [Float 8.8000000000000007] ["red"]
                     ["Conf: 0.800"] [Int 500]),
             mkResult (Some (dict_get [("x", Int 100); ("y", Int 100)] "x" (Int 0), cy))
               (Some "add") None)
    /\ Some "add" <> Some "remove".
Proof.
  apply (add_wins_over_remove (Image.mk 800 600)
           [Detection.mk (Int 100) (Int 500) (Some (Float 0.8)) None None] 600
           (mkUI (LastClicked (Some [("x", Int 100); ("y", Int 100)])) true true false)
           [("x", Int 100); ("y", Int 100)]
           (Some (mkTrace [Int 100] [Int 100] [Float 8.8000000000000007] ["red"]
                    ["Conf: 0.800"] [Int 500]))).
  - vm_compute. reflexivity.
  - unfold height_in_float_range. reflexivity.
  - reflexivity.
  - discriminate.
  - reflexivity.
  - reflexivity.
Defined.

End Overlay.

(* ================================================================== *)
(** * Binary64 rounding of the scaled width *)
(* ================================================================== *)

(** The kernel's floats are specified by [SpecFloat]: an operation rounds
    its exact result with [binary_round_aux].  The lemmas below follow that
    rounding through [float(w)], the true division [h / H] and their
    product, for sides below [2 ^ 53]. *)

Section Rounding.

Lemma fexp_eq (e : Z) : fexp prec emax e = Z.max (e - 53) (-1074).
Proof. reflexivity. Qed.

Lemma digits2_pos_bounds (p : positive) :
  2 ^ (Zpos (digits2_pos p) - 1) <= Zpos p < 2 ^ Zpos (digits2_pos p).
Proof.
  induction p as [p IH | p IH |]; cbn [digits2_pos].
  - rewrite Pos2Z.inj_succ.
    replace (Z.succ (Z.pos (digits2_pos p)) - 1)
      with (Z.succ (Z.pos (digits2_pos p) - 1)) by lia.
    rewrite !Z.pow_succ_r by lia. lia.
  - rewrite Pos2Z.inj_succ.
    replace (Z.succ (Z.pos (digits2_pos p)) - 1)
      with (Z.succ (Z.pos (digits2_pos p) - 1)) by lia.
    rewrite !Z.pow_succ_r by lia. lia.
  - cbn. lia.
Qed.

(** One halving step keeps the record in step with the number it came
    from: [2 * n] is the kept bits times [2 ^ j] plus the dropped part, and
    the sticky bit says whether anything was dropped. *)
Lemma shr_1_step (n j : Z) (mrs : shr_record) :
  0 <= j -> shr_inv n j mrs -> shr_inv n (j + 1) (shr_1 mrs).
Proof.
  unfold shr_inv. intros Hj [t [Ht [Hn [Hs Hm]]]].
  rewrite Z.pow_add_r by lia. change (2 ^ 1) with 2.
  assert (Hp : 0 < 2 ^ j) by (apply Z.pow_pos_nonneg; lia).
  destruct mrs as [m r s]. cbn [shr_m shr_r shr_s] in *.
  exists (Z.b2z r * 2 ^ j + t).
  generalize dependent (2 ^ j). intros X Ht Hn HX.
  destruct m as [| [p | p |] | p]; try lia;
    destruct r, s; cbn [shr_1 shr_m shr_r shr_s orb Z.b2z] in *;
    (repeat split; try lia; try (intros _; lia);
     try (intros H; destruct Hs as [Hs1 Hs2]; first [reflexivity | apply Hs2; lia | lia])).
Qed.

Lemma iter_shr_1 (n : Z) (p : positive) :
  forall (j : Z) (mrs : shr_record),
    0 <= j -> shr_inv n j mrs -> shr_inv n (j + Zpos p) (iter_pos shr_1 p mrs).
Proof.
  induction p as [p IH | p IH |]; intros j mrs Hj H; cbn [iter_pos].
  - replace (j + Z.pos p~1) with (j + 1 + Z.pos p + Z.pos p) by lia.
    apply IH; [lia |]. apply IH; [lia |]. apply shr_1_step; assumption.
  - replace (j + Z.pos p~0) with (j + Z.pos p + Z.pos p) by lia.
    apply IH; [lia |]. apply IH; assumption.
  - apply shr_1_step; assumption.
Qed.

(** Rounding after [p] halvings lands within half a unit of the number. *)
Lemma round_nearest_even_spec (n : Z) (p : positive) :
  0 <= n ->
  let mrs := iter_pos shr_1 p (Build_shr_record n false false) in
  let m1 := round_nearest_even (shr_m mrs) (loc_of_shr_record mrs) in
  0 <= m1 /\ - 2 ^ Zpos p <= 2 * (m1 * 2 ^ Zpos p - n) <= 2 ^ Zpos p.
Proof.
  intros Hn mrs m1.
  assert (Hinit : shr_inv n 0 (Build_shr_record n false false)).
  { exists 0. cbn [shr_m shr_r shr_s Z.b2z]. rewrite Z.pow_0_r.
    repeat split; intros; try lia; try discriminate. }
  pose proof (iter_shr_1 n p 0 _ (Z.le_refl 0) Hinit) as [t [Ht [Hsum [Hs Hm]]]].
  fold mrs in Ht, Hsum, Hs, Hm. rewrite Z.add_0_l in *.
  assert (HX : 0 < 2 ^ Zpos p) by (apply Z.pow_pos_nonneg; lia).
  subst m1. destruct mrs as [m r s]. cbn [shr_m shr_r shr_s] in *.
  generalize dependent (2 ^ Z.pos p). intros X Ht Hsum HX.
  destruct r, s; cbn [loc_of_shr_record round_nearest_even Z.b2z] in *.
  - assert (t <> 0) by (apply Hs; reflexivity). lia.
  - assert (t = 0).
    { destruct (Z.eq_dec t 0) as [E | E]; [exact E |].
      apply Hs in E. discriminate. }
    destruct (Z.even m); lia.
  - lia.
  - lia.
Qed.

Lemma round_upper (m1 n X K : Z) :
  0 < X -> 2 * (m1 * X - n) <= X -> n <= K * X -> m1 <= K.
Proof. intros HX H1 H2. nia. Qed.

Lemma round_lower (m1 n X K : Z) :
  0 < X -> - X <= 2 * (m1 * X - n) -> K * X <= n -> K <= m1.
Proof. intros HX H1 H2. nia. Qed.

Lemma shr_nonpos (mrs : shr_record) (e n : Z) : n <= 0 -> shr mrs e n = (mrs, e).
Proof. intros H. destruct n; [reflexivity | lia | reflexivity]. Qed.

Lemma pow2_lt_inv (a b : Z) : 0 <= b -> 2 ^ a < 2 ^ b -> a < b.
Proof. intros Hb H. apply (Z.pow_lt_mono_r_iff 2); [lia | exact Hb | exact H]. Qed.

Lemma pow2_le (a b : Z) : 0 <= a <= b -> 2 ^ a <= 2 ^ b.
Proof. intros H. apply Z.pow_le_mono_r; lia. Qed.

Lemma pow2_pos (a : Z) : 0 <= a -> 0 < 2 ^ a.
Proof. intros H. apply Z.pow_pos_nonneg; lia. Qed.

(** The second shift of [binary_round_aux]: a rounded mantissa of at most
    [2 ^ 53] is kept, or halved once when the rounding carried. *)
Lemma shr_fexp_rounded (m1 e1 : Z) :
  0 <= m1 <= 2 ^ 53 -> -1074 <= e1 -> 2 ^ 52 <= m1 \/ e1 = -1074 ->
  (m1 = 0 /\ shr_fexp prec emax m1 e1 loc_Exact = (Build_shr_record 0 false false, e1))
  \/ exists m2 e2,
       shr_fexp prec emax m1 e1 loc_Exact = (Build_shr_record (Zpos m2) false false, e2)
       /\ e1 <= e2 /\ Zpos m2 * 2 ^ (e2 - e1) = m1
       /\ canonical_mantissa prec emax m2 e2 = true.
Proof.
  intros Hm He Hc. unfold shr_fexp. cbn [shr_record_of_loc].
  destruct m1 as [| p1 | p1]; [| | lia].
  - left. split; [reflexivity |]. cbn [Zdigits2]. apply shr_nonpos.
    rewrite fexp_eq. lia.
  - right. cbn [Zdigits2].
    pose proof (digits2_pos_bounds p1) as Hd.
    set (d1 := Zpos (digits2_pos p1)) in *.
    assert (Hd1 : 1 <= d1) by (subst d1; lia).
    destruct (Z.eq_dec (Zpos p1) (2 ^ 53)) as [E | E].
    + assert (p1 = (2 ^ 53)%positive) by (apply Pos2Z.inj; exact E).
      subst p1. subst d1.
      exists (2 ^ 52)%positive, (e1 + 1).
      replace (fexp prec emax (Z.pos (digits2_pos (2 ^ 53)) + e1) - e1) with 1
        by (change (Z.pos (digits2_pos (2 ^ 53))) with 54; rewrite fexp_eq; lia).
      split; [reflexivity |]. split; [lia |]. split.
      * replace (e1 + 1 - e1) with 1 by lia. reflexivity.
      * unfold canonical_mantissa. change (Z.pos (digits2_pos (2 ^ 52))) with 53.
        rewrite fexp_eq. apply Z.eqb_eq. lia.
    + assert (Hlt : Zpos p1 < 2 ^ 53) by lia.
      assert (d1 <= 53).
      { assert (d1 - 1 < 53); [| lia].
        apply pow2_lt_inv; [lia |]. lia. }
      exists p1, e1. split.
      * apply shr_nonpos. rewrite fexp_eq. lia.
      * split; [lia |]. split; [rewrite Z.sub_diag; lia |].
        unfold canonical_mantissa. fold d1. rewrite fexp_eq. apply Z.eqb_eq.
        destruct Hc as [Hc | Hc]; [| lia].
        assert (52 < d1) by (apply pow2_lt_inv; lia). lia.
Qed.

(** What [binary_round_aux] returns on an exact positive mantissa whose
    exponent is not above the format's: the mantissa is rounded to the
    nearest multiple of [2 ^ (e1 - ex)], and the result is a zero, a
    canonical finite float of that value, or an infinity. *)
Lemma binary_round_aux_spec (s : bool) (mx : positive) (ex : Z) :
  let e1 := fexp prec emax (Zpos (digits2_pos mx) + ex) in
  ex <= e1 ->
  exists m1,
    0 <= m1
    /\ - 2 ^ (e1 - ex) <= 2 * (m1 * 2 ^ (e1 - ex) - Zpos mx) <= 2 ^ (e1 - ex)
    /\ ((m1 = 0 /\ binary_round_aux prec emax s (Zpos mx) ex loc_Exact = S754_zero s)
        \/ exists m2 e2,
             e1 <= e2 /\ Zpos m2 * 2 ^ (e2 - e1) = m1
             /\ canonical_mantissa prec emax m2 e2 = true
             /\ binary_round_aux prec emax s (Zpos mx) ex loc_Exact
                = if e2 <=? emax - prec then S754_finite s m2 e2
                  else S754_infinity s).
Proof.
  intros e1 Hex.
  pose proof (digits2_pos_bounds mx) as Hd.
  assert (He1 : e1 = Z.max (Zpos (digits2_pos mx) + ex - 53) (-1074))
    by (subst e1; apply fexp_eq).
  set (d := Zpos (digits2_pos mx)) in *.
  assert (Hd1 : 1 <= d) by (subst d; lia).
  assert (Hfirst : exists m1,
             0 <= m1
             /\ - 2 ^ (e1 - ex) <= 2 * (m1 * 2 ^ (e1 - ex) - Zpos mx) <= 2 ^ (e1 - ex)
             /\ (let '(mrs, e) := shr_fexp prec emax (Zpos mx) ex loc_Exact in
                 round_nearest_even (shr_m mrs) (loc_of_shr_record mrs) = m1
                 /\ e = e1)).
  { unfold shr_fexp. cbn [Zdigits2 shr_record_of_loc]. fold d. fold e1.
    destruct (e1 - ex) as [| p | p] eqn:Hn; [| | lia].
    - exists (Zpos mx). cbn [shr shr_m loc_of_shr_record round_nearest_even].
      rewrite Z.pow_0_r. repeat split; lia.
    - cbn [shr].
      pose proof (round_nearest_even_spec (Zpos mx) p (Pos2Z.is_nonneg mx)) as Hr.
      cbv zeta in Hr.
      exists (round_nearest_even
                (shr_m (iter_pos shr_1 p (Build_shr_record (Zpos mx) false false)))
                (loc_of_shr_record
                   (iter_pos shr_1 p (Build_shr_record (Zpos mx) false false)))).
      split; [apply Hr |]. split; [apply Hr |]. split; [reflexivity | lia]. }
  destruct Hfirst as [m1 [Hm1 [Hrn Hstage]]].
  exists m1. split; [exact Hm1 |]. split; [exact Hrn |].
  assert (HX : 0 < 2 ^ (e1 - ex)) by (apply pow2_pos; lia).
  assert (Hup : m1 <= 2 ^ 53).
  { destruct (Z_le_gt_dec (e1 - ex) d) as [Hle | Hgt].
    - apply Z.le_trans with (2 ^ (d - (e1 - ex))); [| apply pow2_le; lia].
      apply (round_upper m1 (Zpos mx) (2 ^ (e1 - ex))); [exact HX | lia |].
      rewrite <- Z.pow_add_r by lia.
      replace (d - (e1 - ex) + (e1 - ex)) with d by lia. lia.
    - apply Z.le_trans with 1; [| lia].
      apply (round_upper m1 (Zpos mx) (2 ^ (e1 - ex))); [exact HX | lia |].
      assert (2 ^ d <= 2 ^ (e1 - ex)) by (apply pow2_le; lia). lia. }
  assert (Hlow : 2 ^ 52 <= m1 \/ e1 = -1074).
  { destruct (Z.eq_dec e1 (-1074)) as [E | E]; [right; exact E | left].
    assert (Hn : e1 - ex = d - 53) by lia.
    apply (round_lower m1 (Zpos mx) (2 ^ (e1 - ex))); [exact HX | lia |].
    rewrite <- Z.pow_add_r by lia.
    replace (52 + (e1 - ex)) with (d - 1) by lia. lia. }
  unfold binary_round_aux.
  destruct (shr_fexp prec emax (Zpos mx) ex loc_Exact) as [mrs e].
  destruct Hstage as [Hround ->]. rewrite Hround.
  destruct (shr_fexp_rounded m1 e1 (conj Hm1 Hup) ltac:(lia) Hlow)
    as [[Hz Hs] | [m2 [e2 [Hs [He2 [Hval Hcan]]]]]]; rewrite Hs; cbn [shr_m].
  - left. split; [exact Hz | reflexivity].
  - right. exists m2, e2. repeat split; assumption.
Qed.

Lemma pos_iter_xO (m p : positive) :
  Zpos (Pos.iter xO m p) = Zpos m * 2 ^ Zpos p
  /\ Zpos (digits2_pos (Pos.iter xO m p)) = Zpos (digits2_pos m) + Zpos p.
Proof.
  induction p as [| p IH] using Pos.peano_ind.
  - cbn [Pos.iter digits2_pos]. rewrite Pos2Z.inj_succ. split; lia.
  - rewrite Pos.iter_succ. cbn [digits2_pos].
    rewrite !Pos2Z.inj_succ, Z.pow_succ_r by lia.
    destruct IH as [IH1 IH2]. split; lia.
Qed.

(** Rounding keeps a mantissa that already is in the format. *)
Lemma binary_round_aux_canonical (s : bool) (mz : positive) (ez : Z) :
  canonical_mantissa prec emax mz ez = true ->
  binary_round_aux prec emax s (Zpos mz) ez loc_Exact
  = if ez <=? emax - prec then S754_finite s mz ez else S754_infinity s.
Proof.
  unfold canonical_mantissa. intros H. apply Z.eqb_eq in H.
  assert (E : shr_fexp prec emax (Zpos mz) ez loc_Exact
              = (Build_shr_record (Zpos mz) false false, ez)).
  { unfold shr_fexp. cbn [Zdigits2 shr_record_of_loc]. rewrite H, Z.sub_diag.
    reflexivity. }
  unfold binary_round_aux. rewrite E.
  cbn [shr_m loc_of_shr_record round_nearest_even]. rewrite E.
  reflexivity.
Qed.

(** [float(w)] is exact below [2 ^ 53]: a 53-bit mantissa over an
    exponent from [-52] to [0]. *)
Lemma Z2float_exact (w : Z) :
  0 < w < 2 ^ 53 ->
  exists mw ew,
    binary_normalize prec emax w 0 false = S754_finite false mw ew
    /\ -52 <= ew <= 0
    /\ Zpos mw = w * 2 ^ (- ew)
    /\ Zpos (digits2_pos mw) = 53.
Proof.
  intros Hw. destruct w as [| pw | pw]; try lia.
  pose proof (digits2_pos_bounds pw) as Hd.
  set (d := Zpos (digits2_pos pw)) in *.
  assert (Hd1 : 1 <= d <= 53).
  { split; [subst d; lia |].
    assert (d - 1 < 53); [| lia]. apply pow2_lt_inv; lia. }
  cbn [binary_normalize]. unfold binary_round, shl_align. fold d.
  rewrite Z.add_0_r, fexp_eq.
  replace (Z.max (d - 53) (-1074) - 0) with (d - 53) by lia.
  replace (Z.max (d - 53) (-1074)) with (d - 53) by lia.
  destruct (d - 53) as [| p | p] eqn:Hp; [| lia |].
  - rewrite binary_round_aux_canonical.
    + exists pw, 0. repeat split; lia.
    + unfold canonical_mantissa. fold d. rewrite fexp_eq. apply Z.eqb_eq. lia.
  - destruct (pos_iter_xO pw p) as [Hv Hdig]. fold d in Hdig.
    rewrite binary_round_aux_canonical.
    + replace (Z.neg p <=? emax - prec) with true
        by (symmetry; apply Z.leb_le; unfold emax, prec; lia).
      exists (Pos.iter xO pw p), (Z.neg p). repeat split; try lia.
      rewrite Hv. reflexivity.
    + unfold canonical_mantissa. rewrite Hdig, fexp_eq. apply Z.eqb_eq. lia.
Qed.

Lemma binary_round_aligned (s : bool) (mx : positive) (ex : Z) :
  ex <= fexp prec emax (Zpos (digits2_pos mx) + ex) ->
  binary_round prec emax s mx ex = binary_round_aux prec emax s (Zpos mx) ex loc_Exact.
Proof.
  intros H. unfold binary_round, shl_align.
  destruct (fexp prec emax (Zpos (digits2_pos mx) + ex) - ex) eqn:E;
    [reflexivity | reflexivity | lia].
Qed.

Lemma int_truediv_pos (h H : Z) :
  0 < h -> 0 < H ->
  int_truediv h H
  = match binary_normalize prec emax
            (2 * (h * 2 ^ Z.max 0 (Z.log2 H - Z.log2 h + 55) / H)
             + (if (h * 2 ^ Z.max 0 (Z.log2 H - Z.log2 h + 55)) mod H =? 0
                then 0 else 1))
            (- Z.max 0 (Z.log2 H - Z.log2 h + 55) - 1) false with
    | S754_infinity _ => Raise OverflowError
    | sf => Ok (SF2Prim sf)
    end.
Proof.
  intros Hh HH. unfold int_truediv.
  rewrite (proj2 (Z.eqb_neq H 0)), (proj2 (Z.eqb_neq h 0)) by lia.
  rewrite (proj2 (Z.ltb_ge h 0)), (proj2 (Z.ltb_ge H 0)) by lia.
  rewrite !Z.abs_eq by lia. reflexivity.
Qed.

(** Rounding the quotient with its sticky bit is rounding the quotient
    itself: [t / h] lies within half a step of the rounded mantissa. *)
Lemma sticky_nearest (a x4 q0 r st h t : Z) :
  0 < h -> 0 < x4 ->
  t = h * q0 + r -> 0 <= r < h ->
  (st = 0 /\ r = 0) \/ (st = 1 /\ 0 < r) ->
  - (4 * x4) <= 2 * (a * (4 * x4) - (2 * q0 + st)) <= 4 * x4 ->
  (2 * (a * (4 * x4)) - 4 * x4) * h <= 4 * t <= (2 * (a * (4 * x4)) + 4 * x4) * h.
Proof.
  intros Hh Hx Ht Hr Hst Hrn.
  assert (L : 2 * (a * (4 * x4)) - 4 * x4 <= 4 * q0) by lia.
  assert (U : 4 * q0 + 4 * st <= 2 * (a * (4 * x4)) + 4 * x4) by lia.
  split.
  - apply Z.le_trans with (4 * q0 * h); [apply Z.mul_le_mono_nonneg_r; lia | lia].
  - apply Z.le_trans with ((4 * q0 + 4 * st) * h);
      [| apply Z.mul_le_mono_nonneg_r; lia].
    destruct Hst as [[-> ->] | [-> Hr0]]; lia.
Qed.

Lemma near_relative (a x4 h t : Z) :
  (2 * a - 4 * x4) * h <= 4 * t <= (2 * a + 4 * x4) * h ->
  4 * x4 * 2 ^ 52 * h <= 2 * t ->
  - (2 * t) <= 2 ^ 53 * (a * h - 2 * t) <= 2 * t.
Proof.
  change (2 ^ 52) with 4503599627370496. change (2 ^ 53) with 9007199254740992.
  intros H1 H2. lia.
Qed.

Lemma int_truediv_spec (h H : Z) :
  0 < h < H -> H < 2 ^ 53 ->
  exists mq qe,
    int_truediv h H = Ok (SF2Prim (S754_finite false mq qe))
    /\ canonical_mantissa prec emax mq qe = true
    /\ -105 <= qe <= 0
    /\ 2 ^ 52 <= Zpos mq <= 2 ^ (- qe)
    /\ - (h * 2 ^ (- qe)) <= 2 ^ 53 * (Zpos mq * H - h * 2 ^ (- qe)) <= h * 2 ^ (- qe).
Proof.
  intros [Hh HhH] HH.
  rewrite int_truediv_pos by lia.
  assert (Hb : 0 <= Z.log2 H < 53).
  { split; [apply Z.log2_nonneg | apply Z.log2_lt_pow2; lia]. }
  pose proof (Z.log2_nonneg h) as Ha.
  pose proof (Z.log2_spec h Hh) as Hla.
  pose proof (Z.log2_spec H ltac:(lia)) as Hlb.
  set (k := Z.max 0 (Z.log2 H - Z.log2 h + 55)) in *.
  assert (Hk : 0 <= k <= 107) by lia.
  assert (Hpk : 0 < 2 ^ k) by (apply pow2_pos; lia).
  set (T := h * 2 ^ k) in *.
  pose proof (Z.div_mod T H ltac:(lia)) as Hdm.
  pose proof (Z.mod_pos_bound T H ltac:(lia)) as Hr.
  set (q0 := T / H) in *. set (r := T mod H) in *.
  set (st := if r =? 0 then 0 else 1).
  assert (Hst : (st = 0 /\ r = 0) \/ (st = 1 /\ 0 < r)).
  { subst st. destruct (Z.eqb_spec r 0); [left | right]; lia. }
  assert (HTlow : 2 ^ 54 * H <= T).
  { assert (E : 2 ^ (Z.log2 H + 55) <= 2 ^ (Z.log2 h + k)) by (apply pow2_le; lia).
    rewrite !Z.pow_add_r in E by lia.
    unfold Z.succ in Hlb. rewrite Z.pow_add_r in Hlb by lia.
    assert (2 ^ Z.log2 h * 2 ^ k <= T)
      by (apply Z.mul_le_mono_nonneg_r; lia).
    change (2 ^ 55) with (2 ^ 54 * 2) in E. change (2 ^ 1) with 2 in Hlb. nia. }
  assert (HTup : T < H * 2 ^ k) by (apply Z.mul_lt_mono_pos_r; lia).
  assert (Hq0 : 2 ^ 54 <= q0 < 2 ^ k) by (split; nia).
  set (m := 2 * q0 + st).
  assert (Hm : 2 ^ 55 <= m < 2 ^ (k + 1)).
  { rewrite Z.pow_add_r by lia. change (2 ^ 55) with (2 * 2 ^ 54).
    change (2 ^ 1) with 2. subst m. lia. }
  destruct m as [| pm | pm] eqn:Em; [lia | | lia].
  cbn [binary_normalize].
  pose proof (digits2_pos_bounds pm) as Hd.
  set (d := Zpos (digits2_pos pm)) in *.
  assert (Hd1 : 56 <= d <= k + 1).
  { split.
    - assert (55 < d); [apply pow2_lt_inv; lia | lia].
    - assert (d - 1 < k + 1); [apply pow2_lt_inv; lia | lia]. }
  assert (He1 : fexp prec emax (d + (- k - 1)) = d - k - 54)
    by (rewrite fexp_eq; lia).
  rewrite binary_round_aligned by (fold d; lia).
  destruct (binary_round_aux_spec false pm (- k - 1)) as [m1 [Hm1 [Hrn Hres]]];
    [fold d; lia |].
  fold d in Hrn, Hres. rewrite He1 in Hrn, Hres.
  replace (d - k - 54 - (- k - 1)) with (d - 53) in Hrn by lia.
  assert (HX : 0 < 2 ^ (d - 53)) by (apply pow2_pos; lia).
  assert (Hlow : 2 ^ 52 <= m1).
  { apply (round_lower m1 (Zpos pm) (2 ^ (d - 53))); [exact HX | lia |].
    rewrite <- Z.pow_add_r by lia. replace (52 + (d - 53)) with (d - 1) by lia. lia. }
  assert (Hup : m1 <= 2 ^ (k + 54 - d)).
  { apply (round_upper m1 (Zpos pm) (2 ^ (d - 53))); [exact HX | lia |].
    rewrite <- Z.pow_add_r by lia. replace (k + 54 - d + (d - 53)) with (k + 1) by lia.
    lia. }
  destruct Hres as [[Hz _] | [m2 [e2 [He2 [Hval [Hcan Hres]]]]]]; [lia |].
  assert (HZ : 0 < 2 ^ (e2 - (d - k - 54))) by (apply pow2_pos; lia).
  assert (He20 : e2 <= 0).
  { destruct (Z_le_gt_dec e2 0) as [Hle | Hgt]; [exact Hle | exfalso].
    assert (Hbig : 2 ^ (k + 54 - d + 1) <= 2 ^ (e2 - (d - k - 54)))
      by (apply pow2_le; lia).
    rewrite Z.pow_add_r in Hbig by lia. change (2 ^ 1) with 2 in Hbig.
    assert (0 < 2 ^ (k + 54 - d)) by (apply pow2_pos; lia). nia. }
  assert (Hsplit : 2 ^ (k + 54 - d) = 2 ^ (- e2) * 2 ^ (e2 - (d - k - 54))).
  { rewrite <- Z.pow_add_r by lia. f_equal. lia. }
  assert (Hm2up : Zpos m2 <= 2 ^ (- e2)).
  { apply (Z.mul_le_mono_pos_r _ _ (2 ^ (e2 - (d - k - 54)))); [exact HZ | lia]. }
  assert (Hm2low : 2 ^ 52 <= Zpos m2).
  { unfold canonical_mantissa in Hcan. apply Z.eqb_eq in Hcan.
    rewrite fexp_eq in Hcan.
    pose proof (digits2_pos_bounds m2) as Hd2.
    replace (Zpos (digits2_pos m2)) with 53 in Hd2 by lia. lia. }
  rewrite Hres.
  replace (e2 <=? emax - prec) with true
    by (symmetry; apply Z.leb_le; unfold emax, prec; lia).
  exists m2, e2. split; [reflexivity |]. split; [exact Hcan |].
  split; [lia |]. split; [lia |].
  assert (Hx4 : 2 ^ (d - 53) = 4 * 2 ^ (d - 55)).
  { change 4 with (2 ^ 2). rewrite <- Z.pow_add_r by lia. f_equal. lia. }
  assert (Hx4pos : 0 < 2 ^ (d - 55)) by (apply pow2_pos; lia).
  rewrite Hx4 in Hrn.
  assert (Epm : Zpos pm = 2 * q0 + st) by (subst m; lia).
  rewrite Epm in Hrn, Hd.
  pose proof (sticky_nearest m1 (2 ^ (d - 55)) q0 r st H T ltac:(lia) Hx4pos Hdm Hr
                Hst Hrn) as Hnear.
  assert (Hrel : 4 * 2 ^ (d - 55) * 2 ^ 52 * H <= 2 * T).
  { assert (E1 : 2 ^ (d - 1) = 4 * 2 ^ (d - 55) * 2 ^ 52).
    { rewrite <- Hx4, <- Z.pow_add_r by lia. f_equal. lia. }
    assert (4 * 2 ^ (d - 55) * 2 ^ 52 <= 2 * q0) by lia.
    apply Z.le_trans with (2 * q0 * H); [apply Z.mul_le_mono_nonneg_r; lia | lia]. }
  set (G := 2 ^ (e2 + k + 1)).
  assert (HG : 0 < G) by (apply pow2_pos; lia).
  assert (HA : m1 * (4 * 2 ^ (d - 55)) = Zpos m2 * G).
  { rewrite <- Hval, <- Hx4, <- Z.mul_assoc, <- Z.pow_add_r by lia.
    subst G. f_equal. f_equal. lia. }
  assert (HY : 2 * T = h * 2 ^ (- e2) * G).
  { subst T G. rewrite <- Z.mul_assoc, <- Z.pow_add_r by lia.
    replace (- e2 + (e2 + k + 1)) with (k + 1) by lia.
    rewrite Z.pow_add_r by lia. change (2 ^ 1) with 2. lia. }
  rewrite HA in Hnear.
  pose proof (near_relative _ _ _ _ Hnear Hrel) as Hacc.
  rewrite HY in Hacc.
  replace (Zpos m2 * G * H - h * 2 ^ (- e2) * G)
    with ((Zpos m2 * H - h * 2 ^ (- e2)) * G) in Hacc by ring.
  rewrite Z.mul_assoc in Hacc.
  split; apply (Z.mul_le_mono_pos_r _ _ G HG); lia.
Qed.

(** The product of an exact width and a quotient of at most one: rounded
    once, within [2 ^ -53] of the product and not above the width. *)
Lemma SFmul_width_spec (mw mq : positive) (ew qe : Z) :
  Zpos (digits2_pos mw) = 53 -> -52 <= ew <= 0 ->
  2 ^ 52 <= Zpos mq <= 2 ^ (- qe) -> -105 <= qe <= 0 ->
  exists m e,
    SFmul prec emax (S754_finite false mw ew) (S754_finite false mq qe)
    = S754_finite false m e
    /\ ew + qe <= e
    /\ Zpos m * 2 ^ (e - (ew + qe)) <= Zpos mw * 2 ^ (- qe)
    /\ - (Zpos mw * Zpos mq)
       <= 2 ^ 53 * (Zpos m * 2 ^ (e - (ew + qe)) - Zpos mw * Zpos mq)
       <= Zpos mw * Zpos mq.
Proof.
  intros Hdw Hew Hmq Hqe.
  pose proof (digits2_pos_bounds mw) as Hw. rewrite Hdw in Hw.
  change (2 ^ (53 - 1)) with (2 ^ 52) in Hw.
  cbn [SFmul xorb].
  pose proof (digits2_pos_bounds (mw * mq)) as Hd.
  set (d := Zpos (digits2_pos (mw * mq))) in *.
  rewrite Pos2Z.inj_mul in *.
  set (N := Zpos mw * Zpos mq) in *.
  assert (HE : 0 < 2 ^ (- qe)) by (apply pow2_pos; lia).
  assert (HNlow : 2 ^ 104 <= N).
  { change (2 ^ 104) with (2 ^ 52 * 2 ^ 52). subst N.
    apply Z.mul_le_mono_nonneg; lia. }
  assert (HNup : N <= Zpos mw * 2 ^ (- qe))
    by (subst N; apply Z.mul_le_mono_nonneg_l; lia).
  assert (HNup' : N < 2 ^ (53 - qe)).
  { replace (53 - qe) with (53 + - qe) by lia. rewrite Z.pow_add_r by lia.
    apply Z.le_lt_trans with (Zpos mw * 2 ^ (- qe)); [exact HNup |].
    apply Z.mul_lt_mono_pos_r; lia. }
  assert (Hd1 : 105 <= d <= 53 - qe).
  { split.
    - assert (104 < d); [apply pow2_lt_inv; lia | lia].
    - assert (d - 1 < 53 - qe); [apply pow2_lt_inv; lia | lia]. }
  assert (He1 : fexp prec emax (d + (ew + qe)) = d + (ew + qe) - 53)
    by (rewrite fexp_eq; lia).
  destruct (binary_round_aux_spec false (mw * mq) (ew + qe)) as [m1 [Hm1 [Hrn Hres]]];
    [fold d; lia |].
  fold d in Hrn, Hres. rewrite He1 in Hrn, Hres.
  rewrite Pos2Z.inj_mul in Hrn, Hres. fold N in Hrn, Hres.
  replace (d + (ew + qe) - 53 - (ew + qe)) with (d - 53) in Hrn by lia.
  assert (HX : 0 < 2 ^ (d - 53)) by (apply pow2_pos; lia).
  assert (Hlow : 2 ^ 52 <= m1).
  { apply (round_lower m1 N (2 ^ (d - 53))); [exact HX | lia |].
    rewrite <- Z.pow_add_r by lia. replace (52 + (d - 53)) with (d - 1) by lia. lia. }
  assert (Hup : m1 * 2 ^ (d - 53) <= Zpos mw * 2 ^ (- qe)).
  { assert (Hk : m1 <= Zpos mw * 2 ^ (53 - qe - d)).
    { apply (round_upper m1 N (2 ^ (d - 53))); [exact HX | lia |].
      rewrite <- Z.mul_assoc, <- Z.pow_add_r by lia.
      replace (53 - qe - d + (d - 53)) with (- qe) by lia. exact HNup. }
    apply Z.le_trans with (Zpos mw * 2 ^ (53 - qe - d) * 2 ^ (d - 53));
      [apply Z.mul_le_mono_nonneg_r; lia |].
    rewrite <- Z.mul_assoc, <- Z.pow_add_r by lia.
    replace (53 - qe - d + (d - 53)) with (- qe) by lia. lia. }
  destruct Hres as [[Hz _] | [m2 [e2 [He2 [Hval [Hcan Hres]]]]]]; [lia |].
  assert (HA : Zpos m2 * 2 ^ (e2 - (ew + qe)) = m1 * 2 ^ (d - 53)).
  { rewrite <- Hval, <- Z.mul_assoc, <- Z.pow_add_r by lia. f_equal. f_equal. lia. }
  assert (He2up : e2 <= emax - prec).
  { unfold emax, prec.
    destruct (Z_le_gt_dec e2 53) as [Hle | Hgt]; [lia | exfalso].
    assert (Hbig : 2 ^ (53 - qe) <= 2 ^ (e2 - (ew + qe))) by (apply pow2_le; lia).
    assert (2 ^ (e2 - (ew + qe)) <= Zpos m2 * 2 ^ (e2 - (ew + qe))).
    { assert (0 < 2 ^ (e2 - (ew + qe))) by (apply pow2_pos; lia). nia. }
    replace (53 - qe) with (53 + - qe) in Hbig by lia.
    rewrite Z.pow_add_r in Hbig by lia.
    assert (Zpos mw * 2 ^ (- qe) < 2 ^ 53 * 2 ^ (- qe))
      by (apply Z.mul_lt_mono_pos_r; lia).
    lia. }
  rewrite Hres. rewrite (proj2 (Z.leb_le _ _) He2up).
  exists m2, e2. split; [reflexivity |]. split; [lia |].
  rewrite HA. split; [exact Hup |].
  assert (Hrel : 2 ^ (d - 53) * 2 ^ 52 <= N).
  { rewrite <- Z.pow_add_r by lia. replace (d - 53 + 52) with (d - 1) by lia. lia. }
  change (2 ^ 53) with 9007199254740992. change (2 ^ 52) with 4503599627370496 in Hrel.
  generalize dependent (2 ^ (d - 53)). intros X. intros. lia.
Qed.

Lemma finite_value_fraction (m : positive) (e c : Z) :
  0 <= c -> 0 <= e + c ->
  ((if 0 <=? e then inject_Z (Zpos m * 2 ^ e) else Zpos m # Z.to_pos (2 ^ (- e)))
   == (Zpos m * 2 ^ (e + c)) # Z.to_pos (2 ^ c))%Q.
Proof.
  intros Hc Hec.
  assert (Hpc : 0 < 2 ^ c) by (apply pow2_pos; lia).
  destruct (Z.leb_spec 0 e) as [He | He]; unfold Qeq, inject_Z; cbn [Qnum Qden].
  - rewrite Z2Pos.id by lia. rewrite Z.pow_add_r by lia. ring.
  - assert (Hpe : 0 < 2 ^ (- e)) by (apply pow2_pos; lia).
    rewrite !Z2Pos.id by lia.
    replace c with (e + c + - e) at 1 by lia.
    rewrite (Z.pow_add_r 2 (e + c) (- e)) by lia. ring.
Qed.

Lemma exact_ratio_fraction (w h H : Z) :
  0 < H ->
  (inject_Z w * (inject_Z h / inject_Z H) == (w * h) # Z.to_pos H)%Q.
Proof.
  intros HH. destruct H as [| pH | pH]; try lia.
  unfold Qeq, Qdiv, Qmult, Qinv, inject_Z. cbn. lia.
Qed.

Lemma relative_error_Q (v : Q) (a s w h H : Z) :
  0 < s -> 0 < H -> (v == a # Z.to_pos s)%Q ->
  - (w * h * s) <= 2 ^ 51 * (a * H - w * h * s) <= w * h * s ->
  (Qabs (v - inject_Z w * (inject_Z h / inject_Z H))
   <= inject_Z w * (inject_Z h / inject_Z H) * (1 # 2 ^ 51))%Q.
Proof.
  intros Hs HH Hv Hb.
  rewrite Hv, (exact_ratio_fraction w h H HH).
  apply Qabs_Qle_condition.
  destruct H as [| pH | pH]; try lia. destruct s as [| ps | ps]; try lia.
  change (2 ^ 51)%positive with 2251799813685248%positive.
  change (2 ^ 51) with 2251799813685248 in Hb.
  unfold Qle, Qminus, Qplus, Qopp, Qmult. cbn [Qnum Qden Z.to_pos].
  rewrite !Pos2Z.inj_mul. split; nia.
Qed.

(** Two roundings of relative error [2 ^ -53] stay within [2 ^ -51]. *)
Lemma two_roundings (w f e mq h H a : Z) :
  0 <= w -> 0 < f -> 0 < e -> 0 < H -> 0 < h ->
  - (h * e) <= 2 ^ 53 * (mq * H - h * e) <= h * e ->
  - (w * f * mq) <= 2 ^ 53 * (a - w * f * mq) <= w * f * mq ->
  - (w * h * (f * e)) <= 2 ^ 51 * (a * H - w * h * (f * e)) <= w * h * (f * e).
Proof.
  intros Hw Hf He HH Hh H1 H2.
  change (2 ^ 53) with 9007199254740992 in *.
  change (2 ^ 51) with 2251799813685248.
  assert (Hp : 0 <= w * f) by (apply Z.mul_nonneg_nonneg; lia).
  set (p := w * f) in *.
  assert (X1 : - (p * (h * e)) <= 9007199254740992 * (p * (mq * H - h * e))
               <= p * (h * e)).
  { split.
    - replace (- (p * (h * e))) with (p * - (h * e)) by ring.
      replace (9007199254740992 * (p * (mq * H - h * e)))
        with (p * (9007199254740992 * (mq * H - h * e))) by ring.
      apply Z.mul_le_mono_nonneg_l; lia.
    - replace (9007199254740992 * (p * (mq * H - h * e)))
        with (p * (9007199254740992 * (mq * H - h * e))) by ring.
      apply Z.mul_le_mono_nonneg_l; lia. }
  assert (X2 : - (p * mq * H) <= 9007199254740992 * ((a - p * mq) * H)
               <= p * mq * H).
  { split.
    - replace (- (p * mq * H)) with (- (p * mq) * H) by ring.
      replace (9007199254740992 * ((a - p * mq) * H))
        with (9007199254740992 * (a - p * mq) * H) by ring.
      apply Z.mul_le_mono_nonneg_r; lia.
    - replace (9007199254740992 * ((a - p * mq) * H))
        with (9007199254740992 * (a - p * mq) * H) by ring.
      apply Z.mul_le_mono_nonneg_r; lia. }
  replace (w * h * (f * e)) with (p * (h * e)) by (subst p; ring).
  assert (Hpa : 0 <= p * (h * e)) by (apply Z.mul_nonneg_nonneg; nia).
  lia.
Qed.

Lemma finite_valid (s : bool) (m : positive) (e : Z) :
  canonical_mantissa prec emax m e = true -> e <= emax - prec ->
  valid_binary (S754_finite s m e) = true.
Proof.
  intros Hc He. cbn [SpecFloat.valid_binary]. unfold bounded.
  rewrite Hc. apply Z.leb_le. exact He.
Qed.

Lemma mul_int_float (w : Z) (q : float) :
  Z.abs w < float_of_int_limit ->
  mul (Int w) (Float q) = Ok (Float (PrimFloat.mul (Z2float w) q)).
Proof.
  intros Hw. unfold mul, as_float. rewrite (float_of_int_in_range w Hw). reflexivity.
Qed.

Lemma below_float_of_int_limit (w : Z) :
  0 <= w < 2 ^ 53 -> Z.abs w < float_of_int_limit.
Proof.
  intros Hw. rewrite Z.abs_eq by lia.
  apply Z.lt_trans with (2 ^ 53); [lia | vm_compute; reflexivity].
Qed.

(** A product that is a zero has the value the exact product has when a
    factor is zero. *)
Lemma zero_width_value (f : float) (s : bool) (w h H : Z) :
  Prim2SF f = S754_zero s -> 0 <= w -> 0 < H -> w * h = 0 ->
  exists v,
    float_value f = Some v
    /\ (0 <= v <= inject_Z w)%Q
    /\ (Qabs (v - inject_Z w * (inject_Z h / inject_Z H))
        <= inject_Z w * (inject_Z h / inject_Z H) * (1 # 2 ^ 51))%Q.
Proof.
  intros Hf Hw HH Hz. exists 0%Q. unfold float_value. rewrite Hf.
  split; [reflexivity |]. split.
  - split; [apply Qle_refl | unfold Qle; cbn; lia].
  - apply (relative_error_Q 0%Q 0 1 w h H); [lia | exact HH | reflexivity |].
    rewrite Z.mul_1_r, Hz. lia.
Qed.

(** The scaled width: [w * (h / H)] in binary64 for sides below
    [2 ^ 53] and [0 <= h < H]. *)
Lemma scaled_width_spec (w h H : Z) :
  0 <= w < 2 ^ 53 -> 0 <= h < H -> H < 2 ^ 53 ->
  exists q f v,
    int_truediv h H = Ok q
    /\ mul (Int w) (Float q) = Ok (Float f)
    /\ float_value f = Some v
    /\ (0 <= v <= inject_Z w)%Q
    /\ (Qabs (v - inject_Z w * (inject_Z h / inject_Z H))
        <= inject_Z w * (inject_Z h / inject_Z H) * (1 # 2 ^ 51))%Q.
Proof.
  intros Hw Hh HH.
  pose proof (below_float_of_int_limit w Hw) as Hlim.
  assert (Hw0 : w = 0 -> Prim2SF (Z2float w) = S754_zero false)
    by (intros ->; reflexivity).
  destruct (Z.eq_dec h 0) as [Eh | Eh].
  - (* display height 0: the quotient is +0.0 *)
    subst h. exists PrimFloat.zero, (PrimFloat.mul (Z2float w) PrimFloat.zero).
    assert (Hq : int_truediv 0 H = Ok PrimFloat.zero).
    { unfold int_truediv. rewrite (proj2 (Z.eqb_neq H 0)) by lia.
      rewrite (proj2 (Z.ltb_ge H 0)) by lia. reflexivity. }
    assert (Hsf : Prim2SF (PrimFloat.mul (Z2float w) PrimFloat.zero) = S754_zero false).
    { rewrite mul_spec. change (Prim2SF PrimFloat.zero) with (S754_zero false).
      destruct (Z.eq_dec w 0) as [Ew | Ew].
      - rewrite (Hw0 Ew). reflexivity.
      - destruct (Z2float_exact w ltac:(lia)) as [mw [ew [HZ [Hew [_ Hdw]]]]].
        unfold Z2float. rewrite HZ, Prim2SF_SF2Prim; [reflexivity |].
        apply finite_valid; [| unfold emax, prec; lia].
        unfold canonical_mantissa. rewrite Hdw, fexp_eq. apply Z.eqb_eq. lia. }
    destruct (zero_width_value _ _ w 0 H Hsf ltac:(lia) ltac:(lia) ltac:(lia))
      as [v [Hv [Hb Ha]]].
    exists v. split; [exact Hq |]. split; [apply mul_int_float; exact Hlim |].
    split; [exact Hv |]. split; assumption.
  - destruct (int_truediv_spec h H ltac:(lia) HH)
      as [mq [qe [Hq [Hcan [Hqe [Hmq Hacc]]]]]].
    assert (Hsq : Prim2SF (SF2Prim (S754_finite false mq qe)) = S754_finite false mq qe).
    { apply Prim2SF_SF2Prim, finite_valid; [exact Hcan | unfold emax, prec; lia]. }
    exists (SF2Prim (S754_finite false mq qe)),
      (PrimFloat.mul (Z2float w) (SF2Prim (S754_finite false mq qe))).
    destruct (Z.eq_dec w 0) as [Ew | Ew].
    + (* an image of width 0 *)
      assert (Hsf : Prim2SF (PrimFloat.mul (Z2float w)
                               (SF2Prim (S754_finite false mq qe)))
                    = S754_zero false).
      { rewrite mul_spec, Hsq, (Hw0 Ew). reflexivity. }
      destruct (zero_width_value _ _ w h H Hsf ltac:(lia) ltac:(lia)
                  ltac:(subst w; lia)) as [v [Hv [Hb Ha]]].
      exists v. split; [exact Hq |]. split; [apply mul_int_float; exact Hlim |].
      split; [exact Hv |]. split; assumption.
    + destruct (Z2float_exact w ltac:(lia)) as [mw [ew [HZ [Hew [Hmw Hdw]]]]].
      assert (Hsw : Prim2SF (Z2float w) = S754_finite false mw ew).
      { unfold Z2float. rewrite HZ. apply Prim2SF_SF2Prim, finite_valid;
          [| unfold emax, prec; lia].
        unfold canonical_mantissa. rewrite Hdw, fexp_eq. apply Z.eqb_eq. lia. }
      destruct (SFmul_width_spec mw mq ew qe Hdw Hew Hmq Hqe)
        as [m [e [Hmul [He [Hbound Hrel]]]]].
      assert (Hsf : Prim2SF (PrimFloat.mul (Z2float w)
                               (SF2Prim (S754_finite false mq qe)))
                    = S754_finite false m e).
      { rewrite mul_spec, Hsq, Hsw. exact Hmul. }
      eexists. split; [exact Hq |]. split; [apply mul_int_float; exact Hlim |].
      split; [unfold float_value; rewrite Hsf; reflexivity |].
      pose proof (finite_value_fraction m e (- (ew + qe)) ltac:(lia) ltac:(lia)) as Hv.
      replace (e + - (ew + qe)) with (e - (ew + qe)) in Hv by lia.
      assert (HF : 0 < 2 ^ (- ew)) by (apply pow2_pos; lia).
      assert (HE : 0 < 2 ^ (- qe)) by (apply pow2_pos; lia).
      assert (HS : 2 ^ (- (ew + qe)) = 2 ^ (- ew) * 2 ^ (- qe)).
      { rewrite <- Z.pow_add_r by lia. f_equal. lia. }
      assert (HSpos : 0 < 2 ^ (- (ew + qe))) by (apply pow2_pos; lia).
      assert (HA : 0 < 2 ^ (e - (ew + qe))) by (apply pow2_pos; lia).
      rewrite Hmw in Hbound, Hrel.
      split.
      * rewrite Hv. unfold Qle, inject_Z. cbn [Qnum Qden].
        rewrite Z2Pos.id by exact HSpos. rewrite HS. split; [| lia].
        rewrite Z.mul_1_r. change (0 * _) with 0. nia.
      * apply (relative_error_Q _ _ (2 ^ (- (ew + qe))) w h H HSpos ltac:(lia) Hv).
        rewrite HS.
        apply (two_roundings w (2 ^ (- ew)) (2 ^ (- qe)) (Zpos mq) h H);
          try lia; assumption.
Qed.

End Rounding.

(* ================================================================== *)
(** * The ROI selector *)
(* ================================================================== *)

Section Roi.

Import ROISelector.

Lemma to_image_trunc_scaled (v : num) (scale : float) (z : Z) :
  to_image v scale = Ok z <-> trunc_scaled v scale z.
Proof. unfold to_image, trunc_scaled. apply bind_ok. Qed.

(** [remap] returns a tuple exactly when each of its steps succeeds. *)
Lemma remap_ok (image : Image.t) (s0 s1 : Z) (rect : CanvasObject.t)
    (x1 y1 x2 y2 : Z) :
  remap image s0 s1 rect = Ok (x1, y1, x2, y2)
  <-> exists scale_x scale_y right bottom,
        int_truediv (Image.width image) s1 = Ok scale_x
        /\ int_truediv (Image.height image) s0 = Ok scale_y
        /\ add (CanvasObject.left rect) (CanvasObject.width rect) = Ok right
        /\ add (CanvasObject.top rect) (CanvasObject.height rect) = Ok bottom
        /\ to_image (CanvasObject.left rect) scale_x = Ok x1
        /\ to_image (CanvasObject.top rect) scale_y = Ok y1
        /\ to_image right scale_x = Ok x2
        /\ to_image bottom scale_y = Ok y2.
Proof.
  unfold remap. split.
  - intros H.
    apply bind_ok in H. destruct H as [sx [Hsx H]].
    apply bind_ok in H. destruct H as [sy [Hsy H]].
    apply bind_ok in H. destruct H as [a1 [Hx1 H]].
    apply bind_ok in H. destruct H as [b1 [Hy1 H]].
    apply bind_ok in H. destruct H as [a2 [Hx2 H]].
    apply bind_ok in H. destruct H as [b2 [Hy2 H]].
    apply bind_ok in Hx2. destruct Hx2 as [r [Hr Hx2]].
    apply bind_ok in Hy2. destruct Hy2 as [b [Hb Hy2]].
    injection H as <- <- <- <-.
    exists sx, sy, r, b. repeat split; assumption.
  - intros [sx [sy [r [b [Hsx [Hsy [Hr [Hb [Hx1 [Hy1 [Hx2 Hy2]]]]]]]]]]].
    rewrite Hsx, Hsy. cbn [Py.bind].
    rewrite Hx1, Hy1. cbn [Py.bind].
    rewrite Hr. cbn [Py.bind]. rewrite Hx2. cbn [Py.bind].
    rewrite Hb. cbn [Py.bind]. rewrite Hy2. reflexivity.
Qed.

(** Only the last object of a non-empty list is read. *)
Lemma extract_roi_last (image : Image.t) (cr : CanvasResult)
    (earlier : list CanvasObject.t) (rect : CanvasObject.t) :
  json_data cr = Some (earlier ++ [rect])%list ->
  extract_roi image cr
  = if String.eqb (CanvasObject.type rect) "rect"
    then r <- remap image (shape0 cr) (shape1 cr) rect ;; Ok (Some r)
    else Ok None.
Proof.
  intros H. unfold extract_roi. rewrite H.
  destruct (earlier ++ [rect])%list as [| first rest] eqn:E.
  - destruct earlier; discriminate.
  - rewrite <- E. rewrite last_last. reflexivity.
Qed.

Lemma extract_roi_no_rect (image : Image.t) (cr : CanvasResult)
    (objects : list CanvasObject.t) :
  json_data cr = Some objects ->
  Forall (fun o => CanvasObject.type o <> "rect") objects ->
  extract_roi image cr = Ok None.
Proof.
  intros H Hall. unfold extract_roi. rewrite H.
  destruct objects as [| first rest]; [reflexivity |].
  assert (Hin : In (last (first :: rest) first) (first :: rest)).
  { destruct (exists_last (l := first :: rest)) as [l' [a E]]; [discriminate |].
    rewrite E. rewrite last_last. apply in_or_app. right. left. reflexivity. }
  rewrite Forall_forall in Hall. specialize (Hall _ Hin).
  destruct (String.eqb_spec (CanvasObject.type (last (first :: rest) first)) "rect")
    as [Heq | Hne]; [contradiction | reflexivity].
Qed.

(** The 1-D core of the extent bound: two non-negative edges cut down to
    integers, against a nearest integer of the extent they approximate. *)
Lemma truncated_extent_within_one (pa pb : num) (x1 x2 r : Z) (a b e : Q) :
  int_of_num pa = Ok x1 -> value pa = Some a ->
  int_of_num pb = Ok x2 -> value pb = Some b ->
  (0 <= a)%Q -> (0 <= b)%Q ->
  (Qabs (b - a - e) < 1 # 2)%Q ->
  nearest_int e r ->
  Z.abs (x2 - x1 - r) <= 1.
Proof.
  intros H1 Ha H2 Hb Ha0 Hb0 Herr Hr.
  destruct (int_of_num_floor pa x1 a H1 Ha Ha0) as [Hl1 Hu1].
  destruct (int_of_num_floor pb x2 b H2 Hb Hb0) as [Hl2 Hu2].
  apply Qabs_Qlt_condition in Herr. destruct Herr as [Herr1 Herr2].
  unfold nearest_int in Hr. apply Qabs_Qle_condition in Hr.
  destruct Hr as [Hr1 Hr2].
  assert (Hhi : (inject_Z x2 - inject_Z x1 - inject_Z r < 2)%Q) by lra.
  assert (Hlo : (- (2) < inject_Z x2 - inject_Z x1 - inject_Z r)%Q) by lra.
  unfold Qlt, Qminus, Qplus, Qopp, inject_Z in Hhi, Hlo.
  cbn [Qnum Qden] in Hhi, Hlo. lia.
Qed.

Lemma draw_roi_selector_unfold (image : Image.t) (height : Z)
    (st_canvas : num -> Z -> CanvasResult) (w : num) :
  canvas_width image height = Ok w ->
  draw_roi_selector image height st_canvas
  = extract_roi image (st_canvas w height).
Proof. intros H. unfold draw_roi_selector. rewrite H. reflexivity. Qed.

Lemma span_within_one (lo ext hi : num) (scale : float) (x1 x2 r : Z) (e : Q) :
  add lo ext = Ok hi ->
  to_image lo scale = Ok x1 ->
  to_image hi scale = Ok x2 ->
  on_canvas_span lo ext scale e ->
  nearest_int e r ->
  Z.abs (x2 - x1 - r) <= 1.
Proof.
  intros Hhi H1 H2 [hi' [a [b [Hhi' [Ha [Hb [Ha0 [Hb0 [_ Herr]]]]]]]]] Hr.
  rewrite Hhi in Hhi'. injection Hhi' as <-.
  apply bind_ok in H1. destruct H1 as [pa [Hpa H1]].
  apply bind_ok in H2. destruct H2 as [pb [Hpb H2]].
  unfold scaled_value in Ha, Hb. rewrite Hpa in Ha. rewrite Hpb in Hb.
  exact (truncated_extent_within_one pa pb x1 x2 r a b e H1 Ha H2 Hb Ha0 Hb0 Herr Hr).
Qed.

(** C2. When the last drawn object is a rectangle, the selector returns
    [(x1, y1, x2, y2)] exactly when [scale_x = image.width / shape[1]],
    [scale_y = image.height / shape[0]], the far corner is formed as
    [left + width], [top + height] before scaling, and each of the four
    values is the truncation of its own product:
    [x1 = trunc(left * scale_x)], [y1 = trunc(top * scale_y)],
    [x2 = trunc((left + width) * scale_x)],
    [y2 = trunc((top + height) * scale_y)]. *)
Theorem roi_corners_formula (image : Image.t) (height : Z)
    (st_canvas : num -> Z -> CanvasResult) (w : num)
    (earlier : list CanvasObject.t) (rect : CanvasObject.t) (x1 y1 x2 y2 : Z) :
  canvas_width image height = Ok w ->
  json_data (st_canvas w height) = Some (earlier ++ [rect])%list ->
  CanvasObject.type rect = "rect" ->
  draw_roi_selector image height st_canvas = Ok (Some (x1, y1, x2, y2))
  <-> exists scale_x scale_y right bottom,
        int_truediv (Image.width image) (shape1 (st_canvas w height)) = Ok scale_x
        /\ int_truediv (Image.height image) (shape0 (st_canvas w height)) = Ok scale_y
        /\ add (CanvasObject.left rect) (CanvasObject.width rect) = Ok right
        /\ add (CanvasObject.top rect) (CanvasObject.height rect) = Ok bottom
        /\ trunc_scaled (CanvasObject.left rect) scale_x x1
        /\ trunc_scaled (CanvasObject.top rect) scale_y y1
        /\ trunc_scaled right scale_x x2
        /\ trunc_scaled bottom scale_y y2.
Proof.
  intros Hw Hjson Htype.
  rewrite (draw_roi_selector_unfold image height st_canvas w Hw).
  rewrite (extract_roi_last image _ earlier rect Hjson).
  rewrite Htype. cbn [String.eqb Ascii.eqb Bool.eqb].
  split.
  - intros H. apply bind_ok in H. destruct H as [[[[a b] c] d] [Hr H]].
    injection H as -> -> -> ->.
    apply remap_ok in Hr.
    destruct Hr as [sx [sy [r [bt [Hsx [Hsy [Hr [Hb [Hx1 [Hy1 [Hx2 Hy2]]]]]]]]]]].
    exists sx, sy, r, bt.
    rewrite <- !to_image_trunc_scaled. repeat split; assumption.
  - intros [sx [sy [r [bt [Hsx [Hsy [Hr [Hb [Hx1 [Hy1 [Hx2 Hy2]]]]]]]]]]].
    rewrite <- to_image_trunc_scaled in Hx1, Hy1, Hx2, Hy2.
    assert (Hre : remap image (shape0 (st_canvas w height))
                    (shape1 (st_canvas w height)) rect = Ok (x1, y1, x2, y2)).
    { apply remap_ok. exists sx, sy, r, bt. repeat split; assumption. }
    rewrite Hre. reflexivity.
Qed.

Lemma roi_corners_formula_witness :
  ROISelector.draw_roi_selector (Image.mk 800 600) 450
    (fun _ _ => mkCanvas
       (Some [CanvasObject.mk "circle" (Int 1) (Int 1) (Int 5) (Int 5);
              CanvasObject.mk "rect" (Float 10.5) (Int 20) (Float 100.25) (Int 50)])
       450 600)
  = Ok (Some (14, 26, 147, 93)).
Proof.
  apply (proj2 (roi_corners_formula (Image.mk 800 600) 450
           (fun _ _ => mkCanvas
              (Some [CanvasObject.mk "circle" (Int 1) (Int 1) (Int 5) (Int 5);
                     CanvasObject.mk "rect" (Float 10.5) (Int 20) (Float 100.25) (Int 50)])
              450 600)
           (Float 600)
           [CanvasObject.mk "circle" (Int 1) (Int 1) (Int 5) (Int 5)]
           (CanvasObject.mk "rect" (Float 10.5) (Int 20) (Float 100.25) (Int 50))
           14 26 147 93
           ltac:(vm_compute; reflexivity) eq_refl eq_refl)).
  exists (800 / 600)%float, (600 / 450)%float, (Float 110.75), (Int 70).
  repeat split; try (vm_compute; reflexivity);
    unfold trunc_scaled; eexists; split; vm_compute; reflexivity.
Defined.

(** Scaling a precomputed width gives another rectangle: for the edge
    [left = 0.25], [width = 0.75] at scale 1 the code's [x2] is 1, while
    [x1 + trunc(width * scale)] is 0. *)
Example precomputed_width_differs :
  to_image (Float 0.25) 1 = Ok 0
  /\ to_image (Float 0.75) 1 = Ok 0
  /\ (r <- add (Float 0.25) (Float 0.75) ;; to_image r 1) = Ok 1.
Proof. vm_compute. repeat split; reflexivity. Qed.

(** C5 (amended to rectangles on the canvas). For a returned ROI whose
    scaled edges are non-negative on both axes and whose binary64 products
    stay within 1/2 of the exact scaled extents [w*sx] and [h*sy], the
    extent rebuilt from the two truncated corners differs from a nearest
    integer of the exact scaled extent by at most 1, on each axis. *)
Theorem roi_extent_within_one (image : Image.t) (s0 s1 : Z)
    (rect : CanvasObject.t) (x1 y1 x2 y2 : Z) (scale_x scale_y : float)
    (ex ey : Q) (rx ry : Z) :
  remap image s0 s1 rect = Ok (x1, y1, x2, y2) ->
  int_truediv (Image.width image) s1 = Ok scale_x ->
  int_truediv (Image.height image) s0 = Ok scale_y ->
  on_canvas_span (CanvasObject.left rect) (CanvasObject.width rect) scale_x ex ->
  on_canvas_span (CanvasObject.top rect) (CanvasObject.height rect) scale_y ey ->
  nearest_int ex rx ->
  nearest_int ey ry ->
  Z.abs (x2 - x1 - rx) <= 1 /\ Z.abs (y2 - y1 - ry) <= 1.
Proof.
  intros Hre Hsx Hsy Hspx Hspy Hrx Hry.
  apply remap_ok in Hre.
  destruct Hre as [sx [sy [r [b [Hsx' [Hsy' [Hr [Hb [Hx1 [Hy1 [Hx2 Hy2]]]]]]]]]]].
  rewrite Hsx in Hsx'. injection Hsx' as <-.
  rewrite Hsy in Hsy'. injection Hsy' as <-.
  split.
  - exact (span_within_one _ _ _ _ _ _ _ _ Hr Hx1 Hx2 Hspx Hrx).
  - exact (span_within_one _ _ _ _ _ _ _ _ Hb Hy1 Hy2 Hspy Hry).
Qed.

Lemma roi_extent_within_one_witness :
  Z.abs (147 - 14 - 134) <= 1 /\ Z.abs (93 - 26 - 67) <= 1.
Proof.
  eapply (roi_extent_within_one (Image.mk 800 600) 450 600
            (CanvasObject.mk "rect" (Float 10.5) (Int 20) (Float 100.25) (Int 50))
            14 26 147 93 (800 / 600)%float (600 / 450)%float _ _ 134 67).
  - vm_compute. reflexivity.
  - vm_compute. reflexivity.
  - vm_compute. reflexivity.
  - unfold on_canvas_span. do 3 eexists.
    split; [reflexivity |]. split; [reflexivity |]. split; [reflexivity |].
    split; [vm_compute; discriminate |]. split; [vm_compute; discriminate |].
    split; [reflexivity |]. vm_compute. reflexivity.
  - unfold on_canvas_span. do 3 eexists.
    split; [reflexivity |]. split; [reflexivity |]. split; [reflexivity |].
    split; [vm_compute; discriminate |]. split; [vm_compute; discriminate |].
    split; [reflexivity |]. vm_compute. reflexivity.
  - vm_compute. discriminate.
  - vm_compute. discriminate.
Defined.

(** C5 fails off the canvas: the rectangle [left = -0.9], [width = 1.8] at
    scale 1 has both corners truncated to 0, so the rebuilt width is 0,
    while the scaled width 1.8 has the single nearest integer 2. *)
Lemma roi_extent_off_canvas_differs :
  remap (Image.mk 100 100) 100 100
    (CanvasObject.mk "rect" (Float (-0.9)) (Int 0) (Float 1.8) (Int 10))
  = Ok (0, 0, 0, 10)
  /\ int_truediv 100 100 = Ok 1%float
  /\ exists e,
       exact_extent (Float 1.8) 1 = Some e
       /\ nearest_int e 2
       /\ (forall r, nearest_int e r -> r = 2)
       /\ ~ Z.abs (0 - 0 - 2) <= 1.
Proof.
  split; [vm_compute; reflexivity |].
  split; [vm_compute; reflexivity |].
  exists ((8106479329266893 # 4503599627370496)
          * (4503599627370496 # 4503599627370496))%Q.
  split; [vm_compute; reflexivity |].
  split; [vm_compute; discriminate |].
  split.
  - intros r Hr. unfold nearest_int in Hr.
    apply Qabs_Qle_condition in Hr. destruct Hr as [Hlo Hhi].
    unfold Qle, Qminus, Qplus, Qopp, Qmult, inject_Z in Hlo, Hhi.
    cbn [Qnum Qden] in Hlo, Hhi. lia.
  - vm_compute. intros H. apply H. reflexivity.
Qed.

(** Past [2^53] the sum [left + width] itself rounds: at [left = 2^55],
    [width = 5] and scale 1 the rebuilt width is 8 against [round(5) = 5]. *)
Example roi_extent_large_magnitude :
  remap (Image.mk 100 100) 100 100
    (CanvasObject.mk "rect" (Float 36028797018963968) (Int 0) (Float 5) (Int 10))
  = Ok (36028797018963968, 0, 36028797018963976, 10).
Proof. vm_compute. reflexivity. Qed.

(** C6. Once the canvas is up, the selector returns [None] when
    [json_data] is [None] or no object of the list is a rectangle; and
    when the list ends with a rectangle it returns the remap of that
    rectangle alone, whatever was drawn before it. *)
Theorem roi_from_last_shape (image : Image.t) (height : Z)
    (st_canvas : num -> Z -> CanvasResult) (w : num) :
  canvas_width image height = Ok w ->
  (json_data (st_canvas w height) = None ->
   draw_roi_selector image height st_canvas = Ok None)
  /\ (forall objects,
        json_data (st_canvas w height) = Some objects ->
        Forall (fun o => CanvasObject.type o <> "rect") objects ->
        draw_roi_selector image height st_canvas = Ok None)
  /\ (forall earlier rect,
        json_data (st_canvas w height) = Some (earlier ++ [rect])%list ->
        CanvasObject.type rect = "rect" ->
        draw_roi_selector image height st_canvas
        = (r <- remap image (shape0 (st_canvas w height))
                  (shape1 (st_canvas w height)) rect ;;
           Ok (Some r))).
Proof.
  intros Hw. rewrite (draw_roi_selector_unfold image height st_canvas w Hw).
  split; [| split].
  - intros H. unfold extract_roi. rewrite H. reflexivity.
  - intros objects H Hall. exact (extract_roi_no_rect image _ objects H Hall).
  - intros earlier rect H Htype.
    rewrite (extract_roi_last image _ earlier rect H).
    rewrite Htype. reflexivity.
Qed.

Lemma roi_from_last_shape_witness :
  ROISelector.draw_roi_selector (Image.mk 800 600) 450
    (fun _ _ => mkCanvas
       (Some [CanvasObject.mk "rect" (Int 300) (Int 300) (Int 40) (Int 40);
              CanvasObject.mk "rect" (Float 10.5) (Int 20) (Float 100.25) (Int 50)])
       450 600)
  = (r <- remap (Image.mk 800 600) 450 600
            (CanvasObject.mk "rect" (Float 10.5) (Int 20) (Float 100.25) (Int 50)) ;;
     Ok (Some r)).
Proof.
  apply (proj2 (proj2
           (roi_from_last_shape (Image.mk 800 600) 450
              (fun _ _ => mkCanvas
                 (Some [CanvasObject.mk "rect" (Int 300) (Int 300) (Int 40) (Int 40);
                        CanvasObject.mk "rect" (Float 10.5) (Int 20) (Float 100.25)
                          (Int 50)])
                 450 600)
              (Float 600) ltac:(vm_compute; reflexivity)))
           [CanvasObject.mk "rect" (Int 300) (Int 300) (Int 40) (Int 40)]
           (CanvasObject.mk "rect" (Float 10.5) (Int 20) (Float 100.25) (Int 50))
           eq_refl eq_refl).
Defined.

(** C8. For an image whose sides are below [2 ^ 53] (PIL holds a side in
    a C int) and a display height that is not negative, the canvas gets a
    width that is never above the image width.  When the image is taller
    than the display height that width is the float
    [image.width * (height / image.height)], whose exact value is within
    a relative [2 ^ -51] (two binary64 roundings) of
    [imageWidth * height / imageHeight]; otherwise it is the image width
    itself, unscaled. *)
Theorem canvas_width_downscale_only (image : Image.t) (height : Z)
    (st_canvas : num -> Z -> CanvasResult) :
  0 <= Image.width image < 2 ^ 53 ->
  Image.height image < 2 ^ 53 ->
  0 <= height ->
  exists w v,
    canvas_width image height = Ok w
    /\ draw_roi_selector image height st_canvas
       = extract_roi image (st_canvas w height)
    /\ value w = Some v
    /\ (0 <= v <= inject_Z (Image.width image))%Q
    /\ (Image.height image > height ->
        (exists q,
            int_truediv height (Image.height image) = Ok q
            /\ mul (Int (Image.width image)) (Float q) = Ok w)
        /\ (Qabs (v - exact_width image height)
            <= exact_width image height * (1 # 2 ^ 51))%Q)
    /\ (Image.height image <= height ->
        w = Int (Image.width image) /\ v = inject_Z (Image.width image)).
Proof.
  intros Hw HH Hh.
  destruct (Z_gt_le_dec (Image.height image) height) as [Hgt | Hle].
  - destruct (scaled_width_spec (Image.width image) height (Image.height image)
                Hw ltac:(lia) HH) as [q [f [v [Hq [Hm [Hv [Hb Ha]]]]]]].
    assert (Hcw : canvas_width image height = Ok (Float f)).
    { unfold canvas_width.
      destruct (Z.gtb_spec (Image.height image) height) as [_ | Hno]; [| lia].
      rewrite Hq. exact Hm. }
    exists (Float f), v. split; [exact Hcw |].
    split; [apply draw_roi_selector_unfold; exact Hcw |].
    split; [exact Hv |]. split; [exact Hb |]. split.
    + intros _. split; [exists q; split; assumption | exact Ha].
    + intros Hno. lia.
  - assert (Hcw : canvas_width image height = Ok (Int (Image.width image))).
    { unfold canvas_width.
      destruct (Z.gtb_spec (Image.height image) height) as [Hno | _]; [lia |].
      reflexivity. }
    exists (Int (Image.width image)), (inject_Z (Image.width image)).
    split; [exact Hcw |].
    split; [apply draw_roi_selector_unfold; exact Hcw |].
    split; [reflexivity |]. split.
    + unfold Qle, inject_Z. cbn [Qnum Qden]. lia.
    + split; [intros Hno; lia | intros _; split; reflexivity].
Qed.

Lemma canvas_width_downscale_only_witness :
  exists w v,
    canvas_width (Image.mk 800 600) 450 = Ok w
    /\ draw_roi_selector (Image.mk 800 600) 450 (fun _ _ => mkCanvas None 450 600)
       = extract_roi (Image.mk 800 600) (mkCanvas None 450 600)
    /\ value w = Some v
    /\ (0 <= v <= inject_Z 800)%Q
    /\ (600 > 450 ->
        (exists q,
            int_truediv 450 600 = Ok q /\ mul (Int 800) (Float q) = Ok w)
        /\ (Qabs (v - exact_width (Image.mk 800 600) 450)
            <= exact_width (Image.mk 800 600) 450 * (1 # 2 ^ 51))%Q)
    /\ (600 <= 450 -> w = Int 800 /\ v = inject_Z 800).
Proof.
  apply (canvas_width_downscale_only (Image.mk 800 600) 450
           (fun _ _ => mkCanvas None 450 600));
    cbn [Image.width Image.height]; lia.
Defined.

Example canvas_width_taller_image :
  canvas_width (Image.mk 800 600) 450 = Ok (Float 600)
  /\ canvas_width (Image.mk 1920 1080) 600 = Ok (Float 1066.6666666666667).
Proof. vm_compute. split; reflexivity. Qed.

Example canvas_width_shorter_image :
  canvas_width (Image.mk 800 600) 600 = Ok (Int 800)
  /\ canvas_width (Image.mk 800 600) 900 = Ok (Int 800).
Proof. vm_compute. split; reflexivity. Qed.

(** The bound on the sides is where [float(image.width)] stops being
    exact: a width of [2 ^ 53 + 3], which no PIL image has, converts to
    [2 ^ 53 + 4], and a quotient that rounds to 1.0 keeps it. *)
Example canvas_width_past_exact_floats :
  canvas_width (Image.mk (2 ^ 53 + 3) (2 ^ 60)) (2 ^ 60 - 1)
  = Ok (Float 9007199254740996).
Proof. vm_compute. reflexivity. Qed.

End Roi.

(* ================================================================== *)
(** * Lemmas on labels: printing and parsing integers, splitting *)
(* ================================================================== *)

Section Strings.

Lemma append_assoc_str (a b c : string) :
  ((a ++ b) ++ c)%string = (a ++ (b ++ c))%string.
Proof. induction a as [| x a IH]; simpl; [reflexivity | rewrite IH; reflexivity]. Qed.

Lemma all_chars_app (p : ascii -> bool) (a b : string) :
  all_chars p (a ++ b)%string = all_chars p a && all_chars p b.
Proof.
  induction a as [| x a IH]; simpl; [reflexivity |].
  rewrite IH. apply andb_assoc.
Qed.

Lemma all_chars_impl (p q : ascii -> bool) (s : string) :
  (forall c, p c = true -> q c = true) ->
  all_chars p s = true -> all_chars q s = true.
Proof.
  intros Hpq. induction s as [| c t IH]; simpl; [reflexivity |].
  intros H. apply andb_true_iff in H. destruct H as [Hc Ht].
  rewrite (Hpq c Hc), (IH Ht). reflexivity.
Qed.

Lemma digit_char_spec (d : Z) :
  0 <= d < 10 ->
  is_digit (digit_char d) = true /\ code (digit_char d) - 48 = d.
Proof.
  intros H.
  assert (E : d = 0 \/ d = 1 \/ d = 2 \/ d = 3 \/ d = 4 \/ d = 5 \/ d = 6
              \/ d = 7 \/ d = 8 \/ d = 9) by lia.
  repeat (destruct E as [-> | E]; [split; reflexivity |]).
  subst d. split; reflexivity.
Qed.

Lemma is_digit_code (c : ascii) : is_digit c = true -> 48 <= code c <= 57.
Proof. unfold is_digit. intros H. apply andb_true_iff in H. lia. Qed.

Lemma digit_not_space (c : ascii) : is_digit c = true -> is_space c = false.
Proof.
  intros H. apply is_digit_code in H. unfold is_space.
  repeat (apply orb_false_iff; split); try (apply andb_false_iff); lia.
Qed.

Lemma digit_not_char (c x : ascii) :
  is_digit c = true -> (code x <? 48) || (57 <? code x) = true ->
  Ascii.eqb c x = false.
Proof.
  intros H Hx. apply is_digit_code in H.
  destruct (Ascii.eqb_spec c x) as [-> | _]; [| reflexivity].
  apply orb_true_iff in Hx. lia.
Qed.

Lemma digits_fuel_all_digits (k : nat) (n : Z) (acc : string) :
  0 <= n -> all_chars is_digit acc = true ->
  all_chars is_digit (digits_fuel k n acc) = true.
Proof.
  revert n acc. induction k as [| k IH]; intros n acc Hn Hacc; simpl.
  - exact Hacc.
  - assert (Hd : all_chars is_digit (String (digit_char (n mod 10)) acc) = true).
    { simpl. rewrite Hacc.
      destruct (digit_char_spec (n mod 10)) as [-> _]; [| reflexivity].
      apply Z.mod_pos_bound. lia. }
    destruct (n <? 10); [exact Hd |].
    apply IH; [| exact Hd]. apply Z.div_pos; lia.
Qed.

Lemma digits_fuel_nonempty (k : nat) (n : Z) (acc : string) :
  acc <> "" -> digits_fuel k n acc <> "".
Proof.
  revert n acc. induction k as [| k IH]; intros n acc Hacc; simpl.
  - exact Hacc.
  - destruct (n <? 10); [discriminate |]. apply IH. discriminate.
Qed.

Lemma int_digits_digit (c : ascii) (t : string) (acc : Z) (b : bool) :
  is_digit c = true ->
  int_digits (String c t) acc b = int_digits t (10 * acc + (code c - 48)) true.
Proof. intros H. simpl. rewrite H. reflexivity. Qed.

Lemma int_digits_digits_fuel (k : nat) (n : Z) (rest : string) (b : bool) :
  0 <= n < 10 ^ Z.of_nat (S k) ->
  int_digits (digits_fuel (S k) n rest) 0 b = int_digits rest n true.
Proof.
  revert n rest b. induction k as [| k IH]; intros n rest b Hn.
  - assert (Hlt : n < 10) by (change (10 ^ Z.of_nat 1) with 10 in Hn; lia).
    cbn [digits_fuel].
    destruct (Z.ltb_spec n 10) as [_ | Hge]; [| lia].
    destruct (digit_char_spec (n mod 10)) as [Hd Hc]; [apply Z.mod_pos_bound; lia |].
    rewrite (int_digits_digit _ _ _ _ Hd), Hc.
    rewrite Z.mod_small by lia. reflexivity.
  - destruct (digit_char_spec (n mod 10)) as [Hd Hc]; [apply Z.mod_pos_bound; lia |].
    change (digits_fuel (S (S k)) n rest)
      with (if n <? 10 then String (digit_char (n mod 10)) rest
            else digits_fuel (S k) (n / 10) (String (digit_char (n mod 10)) rest)).
    destruct (Z.ltb_spec n 10) as [Hlt | Hge].
    + rewrite (int_digits_digit _ _ _ _ Hd), Hc.
      rewrite Z.mod_small by lia. reflexivity.
    + rewrite IH.
      * rewrite (int_digits_digit _ _ _ _ Hd), Hc.
        f_equal. pose proof (Z.div_mod n 10 ltac:(lia)). lia.
      * split; [apply Z.div_pos; lia |].
        apply Z.div_lt_upper_bound; [lia |].
        replace (Z.of_nat (S (S k))) with (Z.succ (Z.of_nat (S k))) in Hn by lia.
        rewrite Z.pow_succ_r in Hn by lia. lia.
Qed.

Lemma decimal_fuel_enough (n : Z) :
  0 <= n -> n < 10 ^ Z.of_nat (S (Z.to_nat (Z.log2 n))).
Proof.
  intros Hn.
  replace (Z.of_nat (S (Z.to_nat (Z.log2 n)))) with (Z.succ (Z.log2 n))
    by (pose proof (Z.log2_nonneg n); lia).
  pose proof (Z.log2_nonneg n) as Hl.
  assert (H2 : n < 2 ^ Z.succ (Z.log2 n)).
  { destruct (Z.eq_dec n 0) as [-> | Hnz].
    - reflexivity.
    - apply Z.log2_spec. lia. }
  assert (H10 : 2 ^ Z.succ (Z.log2 n) <= 10 ^ Z.succ (Z.log2 n)).
  { apply Z.pow_le_mono_l. lia. }
  lia.
Qed.

Lemma str_of_nonneg_all_digits (n : Z) :
  0 <= n -> all_chars is_digit (str_of_nonneg n) = true.
Proof. intros Hn. apply digits_fuel_all_digits; [exact Hn | reflexivity]. Qed.

Lemma str_of_nonneg_nonempty (n : Z) : str_of_nonneg n <> "".
Proof.
  unfold str_of_nonneg. cbn [digits_fuel].
  destruct (n <? 10); [discriminate |].
  apply digits_fuel_nonempty. discriminate.
Qed.

Lemma int_digits_str_of_nonneg (n : Z) :
  0 <= n -> int_digits (str_of_nonneg n) 0 false = Some n.
Proof.
  intros Hn. unfold str_of_nonneg.
  rewrite int_digits_digits_fuel by (split; [exact Hn | apply decimal_fuel_enough; exact Hn]).
  reflexivity.
Qed.

Lemma lstrip_nonspace (c : ascii) (t : string) :
  is_space c = false -> lstrip (String c t) = String c t.
Proof. intros H. simpl. rewrite H. reflexivity. Qed.

Lemma rstrip_nonspace (s : string) :
  all_chars (fun c => negb (is_space c)) s = true -> rstrip s = s.
Proof.
  induction s as [| c t IH]; simpl; [reflexivity |].
  intros H. apply andb_true_iff in H. destruct H as [Hc Ht].
  rewrite (IH Ht). apply negb_true_iff in Hc. rewrite Hc.
  destruct t; reflexivity.
Qed.

Lemma digits_nonspace (s : string) :
  all_chars is_digit s = true ->
  all_chars (fun c => negb (is_space c)) s = true.
Proof.
  apply all_chars_impl. intros c H. rewrite (digit_not_space c H). reflexivity.
Qed.

(** Parsing the decimal numeral of a non-negative integer gives it back. *)
Lemma int_of_str_str_of_nonneg (n : Z) :
  0 <= n -> int_of_str (str_of_nonneg n) = Ok n.
Proof.
  intros Hn.
  pose proof (str_of_nonneg_all_digits n Hn) as Hall.
  pose proof (str_of_nonneg_nonempty n) as Hne.
  pose proof (int_digits_str_of_nonneg n Hn) as Hparse.
  destruct (str_of_nonneg n) as [| c t]; [contradiction |].
  pose proof Hall as Hall'.
  simpl in Hall'. apply andb_true_iff in Hall'. destruct Hall' as [Hc _].
  unfold int_of_str, strip.
  rewrite (lstrip_nonspace c t (digit_not_space c Hc)).
  rewrite (rstrip_nonspace _ (digits_nonspace _ Hall)).
  rewrite (digit_not_char c "-" Hc eq_refl), (digit_not_char c "+" Hc eq_refl).
  rewrite Hparse. reflexivity.
Qed.

Lemma split_on_first (sep : ascii) (a b : string) :
  all_chars (fun c => negb (Ascii.eqb c sep)) a = true ->
  split_on sep (a ++ String sep b) = a :: split_on sep b.
Proof.
  induction a as [| c a IH]; simpl.
  - intros _. rewrite Ascii.eqb_refl. reflexivity.
  - intros H. apply andb_true_iff in H. destruct H as [Hc Ha].
    apply negb_true_iff in Hc. rewrite Hc. rewrite (IH Ha). reflexivity.
Qed.

Lemma split_ws_word (s : string) :
  s <> "" -> all_chars (fun c => negb (is_space c)) s = true ->
  split_ws s = [s].
Proof.
  induction s as [| c t IH]; [contradiction |].
  intros _ H. simpl in H. apply andb_true_iff in H. destruct H as [Hc Ht].
  apply negb_true_iff in Hc.
  destruct t as [| c' t'].
  - simpl. rewrite Hc. reflexivity.
  - assert (Hc' : is_space c' = false).
    { simpl in Ht. apply andb_true_iff in Ht. destruct Ht as [Hc' _].
      apply negb_true_iff in Hc'. exact Hc'. }
    change (split_ws (String c (String c' t')))
      with (if is_space c then split_ws (String c' t')
            else if is_space c' then String c "" :: split_ws (String c' t')
            else match split_ws (String c' t') with
                 | w :: ws => String c w :: ws
                 | [] => [String c ""]
                 end).
    rewrite Hc, Hc'. rewrite IH by (discriminate || exact Ht). reflexivity.
Qed.

End Strings.

(* ================================================================== *)
(** * The manual point editor *)
(* ================================================================== *)

Section Editor.

Import ManualPointEditor.

Lemma str_of_int_nonneg (n : Z) : 0 <= n -> str_of_int n = str_of_nonneg n.
Proof.
  intros H. unfold str_of_int.
  destruct (Z.ltb_spec n 0) as [Hlt | _]; [lia | reflexivity].
Qed.

Lemma point_prefix_no_colon (n : Z) :
  0 <= n ->
  all_chars (fun c => negb (Ascii.eqb c ":")) ("Point " ++ str_of_nonneg n) = true.
Proof.
  intros Hn. rewrite all_chars_app. apply andb_true_iff. split; [reflexivity |].
  apply (all_chars_impl is_digit); [| apply str_of_nonneg_all_digits; exact Hn].
  intros c Hc. rewrite (digit_not_char c ":" Hc eq_refl). reflexivity.
Qed.

Lemma split_ws_point (n : Z) :
  0 <= n ->
  split_ws ("Point " ++ str_of_nonneg n) = ["Point"; str_of_nonneg n].
Proof.
  intros Hn.
  pose proof (split_ws_word (str_of_nonneg n) (str_of_nonneg_nonempty n)
                (digits_nonspace _ (str_of_nonneg_all_digits n Hn))) as Hw.
  change (split_ws ("Point " ++ str_of_nonneg n))
    with ("Point" :: split_ws (str_of_nonneg n)).
  rewrite Hw. reflexivity.
Qed.

(** The label of position [i] parses back to [i], whatever the two
    coordinates printed after the colon. *)
Lemma parse_index_format_label (i : nat) (xi yi : Z) :
  parse_index (format_label i xi yi) = Ok (Z.of_nat i).
Proof.
  assert (Hn : 0 <= Z.of_nat i + 1) by lia.
  unfold format_label, parse_index.
  rewrite (str_of_int_nonneg _ Hn).
  change ("Point " ++ str_of_nonneg (Z.of_nat i + 1) ++ ": (" ++ str_of_int xi
            ++ ", " ++ str_of_int yi ++ ")")%string
    with ("Point " ++ (str_of_nonneg (Z.of_nat i + 1)
            ++ String ":" (" (" ++ str_of_int xi ++ ", " ++ str_of_int yi ++ ")")))%string.
  rewrite <- append_assoc_str.
  rewrite (split_on_first ":" _ _ (point_prefix_no_colon _ Hn)).
  cbn [Py.index nth_error Py.bind].
  rewrite (split_ws_point _ Hn).
  cbn [Py.index nth_error Py.bind].
  rewrite (int_of_str_str_of_nonneg _ Hn).
  cbn [Py.bind]. f_equal. lia.
Qed.

Lemma format_label_truthy (i : nat) (xi yi : Z) :
  truthy_str (format_label i xi yi) = true.
Proof. reflexivity. Qed.

Lemma label_ok (i : nat) (d : Detection.t) (l : string) :
  label i d = Ok l -> exists xi yi, l = format_label i xi yi.
Proof.
  unfold label. intros H.
  apply bind_ok in H. destruct H as [xi [_ H]].
  apply bind_ok in H. destruct H as [yi [_ H]].
  injection H as <-. exists xi, yi. reflexivity.
Qed.

Lemma point_options_from_nth (ds : list Detection.t) :
  forall (k : nat) (options : list string) (i : nat) (d : Detection.t),
    point_options_from k ds = Ok options ->
    nth_error ds i = Some d ->
    exists l, nth_error options i = Some l /\ label (k + i) d = Ok l.
Proof.
  induction ds as [| d0 ds IH]; intros k options i d H Hi.
  - destruct i; discriminate.
  - simpl in H. apply bind_ok in H. destruct H as [l0 [Hl0 H]].
    apply bind_ok in H. destruct H as [ls [Hls H]].
    injection H as <-.
    destruct i as [| i]; simpl in Hi.
    + injection Hi as <-. exists l0. rewrite Nat.add_0_r. split; [reflexivity | exact Hl0].
    + destruct (IH (S k) ls i d Hls Hi) as [l [Hl Hlab]].
      exists l. split; [exact Hl |].
      replace (k + S i)%nat with (S k + i)%nat by lia. exact Hlab.
Qed.

(** X12. Selecting the option at position [i] and confirming returns the
    remove instruction for index [i]; a point entered with the add button
    in the same rerun stays in the result. *)
Lemma remove_selected_index (detections : list Detection.t)
    (options : list string) (image_size : Z * Z) (ui : UI) (i : nat) :
  point_options detections = Ok options ->
  (i < List.length detections)%nat ->
  remove_select ui = i ->
  remove_btn ui = true ->
  edit_points_interface detections image_size ui
  = Ok (mkResult (Some "remove") (point (add_flow ui empty_result))
          (Some (Z.of_nat i))).
Proof.
  intros Hopts Hi Hsel Hbtn.
  destruct (nth_error detections i) as [d |] eqn:Hd;
    [| apply nth_error_None in Hd; lia].
  destruct (point_options_from_nth detections 0 options i d Hopts Hd)
    as [l [Hl Hlab]].
  destruct (label_ok _ _ _ Hlab) as [xi [yi ->]].
  unfold edit_points_interface, remove_flow.
  destruct detections as [| d0 ds]; [destruct i; discriminate |].
  rewrite Hopts. cbn [Py.bind]. unfold selectbox. rewrite Hsel, Hl, Hbtn.
  rewrite format_label_truthy. cbn [andb].
  rewrite parse_index_format_label. reflexivity.
Qed.

(** C3. For every position [i] of the detection list whose labels could
    be built, the generated label
    ["Point {i+1}: ({int(x)}, {int(y)})"] sits at position [i] of the
    options, and parsing it (split on the colon, second word, minus 1)
    gives back exactly [i]. *)
Theorem label_round_trip (detections : list Detection.t)
    (options : list string) (i : nat) (d : Detection.t) :
  point_options detections = Ok options ->
  nth_error detections i = Some d ->
  exists xi yi,
    int_of_num (Detection.x d) = Ok xi
    /\ int_of_num (Detection.y d) = Ok yi
    /\ nth_error options i = Some (format_label i xi yi)
    /\ parse_index (format_label i xi yi) = Ok (Z.of_nat i).
Proof.
  intros Hopts Hd.
  destruct (point_options_from_nth detections 0 options i d Hopts Hd)
    as [l [Hl Hlab]].
  simpl in Hlab. unfold label in Hlab.
  apply bind_ok in Hlab. destruct Hlab as [xi [Hxi Hlab]].
  apply bind_ok in Hlab. destruct Hlab as [yi [Hyi Hlab]].
  injection Hlab as <-.
  exists xi, yi. repeat split; try assumption.
  apply parse_index_format_label.
Qed.

Lemma label_round_trip_witness :
  exists xi yi,
    int_of_num (Float 10.5) = Ok xi
    /\ int_of_num (Float 100.1) = Ok yi
    /\ nth_error ["Point 1: (100, 500)"; "Point 2: (10, 100)"] 1
       = Some (format_label 1 xi yi)
    /\ parse_index (format_label 1 xi yi) = Ok (Z.of_nat 1).
Proof.
  apply (label_round_trip
           [Detection.mk (Int 100) (Int 500) None None None;
            Detection.mk (Float 10.5) (Float 100.1) None None None]
           ["Point 1: (100, 500)"; "Point 2: (10, 100)"] 1
           (Detection.mk (Float 10.5) (Float 100.1) None None None)).
  - vm_compute. reflexivity.
  - reflexivity.
Defined.

(** C7 (amended to the remove flow's own fields). With an empty detection
    list the call does not raise and the remove flow adds nothing: the
    result is the one the add flow left, its [index] is [None], its
    action is never "remove", and it is [None] unless the add button was
    pressed. *)
Theorem empty_detections_remove_inert (image_size : Z * Z) (ui : UI) :
  edit_points_interface [] image_size ui = Ok (add_flow ui empty_result)
  /\ index (add_flow ui empty_result) = None
  /\ action (add_flow ui empty_result) <> Some "remove"
  /\ (add_btn ui = false -> add_flow ui empty_result = mkResult None None None).
Proof.
  unfold edit_points_interface, remove_flow, add_flow, empty_result.
  destruct (add_btn ui); simpl; repeat split; try reflexivity; try discriminate.
Qed.

(** C7 fails when the add button is pressed in the same rerun: with no
    detection at all the returned action is "add", not [None]. *)
Lemma empty_detections_add_pressed :
  edit_points_interface [] (800, 600) (mkUI (Int 5) (Int 6) true 0 false)
  = Ok (mkResult (Some "add") (Some (Int 5, Int 6)) None)
  /\ action (mkResult (Some "add") (Some (Int 5, Int 6)) None) <> None.
Proof. split; [reflexivity | discriminate]. Qed.

End Editor.

(* ================================================================== *)
(** * Further properties of the point overlay *)
(* ================================================================== *)

Section OverlayCoverage.

Import InteractiveImageEditor.

Lemma traverse_length {A B : Type} (f : A -> result B) (xs : list A) (ys : list B) :
  traverse f xs = Ok ys -> List.length ys = List.length xs.
Proof.
  revert ys. induction xs as [| a xs IH]; intros ys H; simpl in H.
  - injection H as <-. reflexivity.
  - apply bind_ok in H. destruct H as [b [_ H]].
    apply bind_ok in H. destruct H as [ys' [Hys' H]].
    injection H as <-. simpl. rewrite (IH ys' Hys'). reflexivity.
Qed.

Lemma dict_get_absent {V : Type} (d : list (string * V)) (k : string) (default : V) :
  (forall v, ~ In (k, v) d) -> dict_get d k default = default.
Proof.
  induction d as [| [k' v'] d IH]; intros H; simpl; [reflexivity |].
  destruct (String.eqb_spec k' k) as [-> | Hne].
  - exfalso. apply (H v'). left. reflexivity.
  - apply IH. intros v Hin. apply (H v). right. exact Hin.
Qed.

Lemma click_on_marker_int_witness :
  exists px py,
    nth_error [Int 100; Float 10.5] 0 = Some px
    /\ nth_error [Int 100; Float 499.9] 0 = Some py
    /\ (clicked_data
          (mkUI (LastClicked (Some [("x", Int 100); ("y", Int 100)])) false true false)
        = LastClicked (Some [("x", px); ("y", py)]) ->
        add_mode (mkUI (LastClicked (Some [("x", Int 100); ("y", Int 100)]))
                    false true false) = true
        \/ remove_mode (mkUI (LastClicked (Some [("x", Int 100); ("y", Int 100)]))
                          false true false) = true ->
        handle_click (Image.mk 800 600)
          (mkUI (LastClicked (Some [("x", Int 100); ("y", Int 100)])) false true false)
        = Ok (mkResult (Some (Int 100, Int 500))
                (Some (if add_mode
                            (mkUI (LastClicked (Some [("x", Int 100); ("y", Int 100)]))
                               false true false)
                       then "add" else "remove")) None)).
Proof.
  apply (click_on_marker_int (Image.mk 800 600)
           [Detection.mk (Int 100) (Int 500) (Some (Float 0.8)) None None;
            Detection.mk (Float 10.5) (Float 100.1) None None None]
           (mkTrace [Int 100; Float 10.5] [Int 100; Float 499.9]
              [Float 8.8000000000000007; Float 10] ["red"; "red"]
              ["Conf: 0.800"; "Conf: 1.000"] [Int 500; Float 100.1])
           0 (Detection.mk (Int 100) (Int 500) (Some (Float 0.8)) None None) 500
           (mkUI (LastClicked (Some [("x", Int 100); ("y", Int 100)])) false true false)).
  - vm_compute. reflexivity.
  - reflexivity.
  - reflexivity.
Defined.

(** X2. The five lists of the scatter trace are aligned with the
    detections: each has one entry per detection, and entry [i] is built
    from detection [i] alone: its own [x], its flipped [y], the size of
    its confidence (1.0 when absent), its colour, and its unflipped [y] as
    hover data. *)
Theorem scatter_trace_aligned (image : Image.t) (detections : list Detection.t)
    (t : Trace) :
  scatter_trace image detections = Ok t ->
  (List.length (x_coords t) = List.length detections
   /\ List.length (y_coords t) = List.length detections
   /\ List.length (marker_size t) = List.length detections
   /\ List.length (colors t) = List.length detections
   /\ List.length (customdata t) = List.length detections)
  /\ forall i d,
       nth_error detections i = Some d ->
       nth_error (x_coords t) i = Some (Detection.x d)
       /\ (exists py, nth_error (y_coords t) i = Some py
                      /\ sub (Int (Image.height image)) (Detection.y d) = Ok py)
       /\ (exists s, nth_error (marker_size t) i = Some s
                     /\ size_of_confidence
                          (match Detection.conf d with
                           | Some c => c
                           | None => Float 1
                           end) = Ok s)
       /\ nth_error (colors t) i = Some (marker_color d)
       /\ nth_error (customdata t) i = Some (Detection.y d).
Proof.
  intros H.
  destruct (scatter_trace_ok _ _ _ H) as [ys [ss [ts [Hys [Hss [_ [_ ->]]]]]]].
  cbn [x_coords y_coords marker_size colors customdata].
  split.
  - rewrite !length_map.
    rewrite (traverse_length _ _ _ Hys).
    rewrite (traverse_length _ _ _ Hss), length_map.
    repeat split; reflexivity.
  - intros i d Hi. split; [| split; [| split; [| split]]].
    + apply map_nth_error. exact Hi.
    + destruct (traverse_nth _ _ _ Hys i d Hi) as [py [Hpy Hf]].
      exists py. split; [exact Hpy | exact Hf].
    + destruct (traverse_nth _ _ _ Hss i (confidence d)
                  (map_nth_error confidence i detections Hi)) as [s [Hs Hf]].
      exists s. split; [exact Hs | exact Hf].
    + apply map_nth_error. exact Hi.
    + apply map_nth_error. exact Hi.
Qed.


Lemma scatter_trace_aligned_witness :
  (List.length [Int 100; Float 10.5] = 2%nat
   /\ List.length [Int 100; Float 499.9] = 2%nat
   /\ List.length [Float 8.8000000000000007; Float 10] = 2%nat
   /\ List.length ["red"; "green"] = 2%nat
   /\ List.length [Int 500; Float 100.1] = 2%nat)
  /\ forall i d,
       nth_error
         [Detection.mk (Int 100) (Int 500) (Some (Float 0.8)) None None;
          Detection.mk (Float 10.5) (Float 100.1) None (Some true) None] i = Some d ->
       nth_error [Int 100; Float 10.5] i = Some (Detection.x d)
       /\ (exists py, nth_error [Int 100; Float 499.9] i = Some py
                      /\ sub (Int 600) (Detection.y d) = Ok py)
       /\ (exists s, nth_error [Float 8.8000000000000007; Float 10] i = Some s
                     /\ size_of_confidence
                          (match Detection.conf d with
                           | Some c => c
                           | None => Float 1
                           end) = Ok s)
       /\ nth_error ["red"; "green"] i = Some (marker_color d)
       /\ nth_error [Int 500; Float 100.1] i = Some (Detection.y d).
Proof.
  apply (scatter_trace_aligned (Image.mk 800 600)
           [Detection.mk (Int 100) (Int 500) (Some (Float 0.8)) None None;
            Detection.mk (Float 10.5) (Float 100.1) None (Some true) None]
           (mkTrace [Int 100; Float 10.5] [Int 100; Float 499.9]
              [Float 8.8000000000000007; Float 10] ["red"; "green"]
              ["Conf: 0.800"; "Conf: 1.000"] [Int 500; Float 100.1])).
  vm_compute. reflexivity.
Defined.

(** X3. Whatever the widgets returned, a returned dictionary has one of
    two shapes: no clicked point and no action, or a clicked point tagged
    "add" or "remove". Its [roi] is always [None] (the ROI button changes
    nothing), and a trace is plotted exactly when the detection list is
    not empty. *)
Theorem overlay_result_shape (image : Image.t) (detections : list Detection.t)
    (height : Z) (enable_editing : bool) (ui : UI) (trace : option Trace)
    (res : Result) :
  display_image_with_points image detections height enable_editing ui
  = Ok (trace, res) ->
  roi res = None
  /\ ((clicked_point res = None /\ action res = None)
      \/ (exists p, clicked_point res = Some p
                    /\ (action res = Some "add" \/ action res = Some "remove")))
  /\ (trace = None <-> detections = []).
Proof.
  unfold display_image_with_points. intros H.
  apply bind_ok in H. destruct H as [tr [Htr H]].
  apply bind_ok in H. destruct H as [r [Hr H]].
  injection H as <- <-.
  assert (Hshape : roi r = None
                   /\ ((clicked_point r = None /\ action r = None)
                       \/ (exists p, clicked_point r = Some p
                             /\ (action r = Some "add" \/ action r = Some "remove")))).
  { destruct enable_editing.
    - unfold handle_click in Hr.
      destruct (clicked_data ui) as [| | [[| kv click] |] |];
        try discriminate;
        try (injection Hr as <-; split; [reflexivity | left; split; reflexivity]).
      apply bind_ok in Hr. destruct Hr as [cy [_ Hr]].
      destruct (add_mode ui); [| destruct (remove_mode ui)];
        injection Hr as <-; split; try reflexivity.
      + right. eexists. split; [reflexivity | left; reflexivity].
      + right. eexists. split; [reflexivity | right; reflexivity].
      + left. split; reflexivity.
    - injection Hr as <-. split; [reflexivity | left; split; reflexivity]. }
  destruct Hshape as [Hroi Hpair]. split; [exact Hroi | split; [exact Hpair |]].
  unfold build_figure in Htr.
  apply bind_ok in Htr. destruct Htr as [tr0 [Htr0 Htr]].
  destruct (10 <=? height); [| discriminate]. injection Htr as <-.
  destruct detections as [| d ds].
  - injection Htr0 as <-. split; reflexivity.
  - apply bind_ok in Htr0. destruct Htr0 as [t [_ Htr0]]. injection Htr0 as <-.
    split; discriminate.
Qed.

Lemma overlay_result_shape_witness :
  roi (mkResult (Some (Int 100, Int 500)) (Some "remove") None) = None
  /\ ((clicked_point (mkResult (Some (Int 100, Int 500)) (Some "remove") None) = None
       /\ action (mkResult (Some (Int 100, Int 500)) (Some "remove") None) = None)
      \/ (exists p,
            clicked_point (mkResult (Some (Int 100, Int 500)) (Some "remove") None)
            = Some p
            /\ (action (mkResult (Some (Int 100, Int 500)) (Some "remove") None)
                = Some "add"
                \/ action (mkResult (Some (Int 100, Int 500)) (Some "remove") None)
                   = Some "remove")))
  /\ (Some (mkTrace [Int 100] [Int 100] [Float 8.8000000000000007] ["red"]
              ["Conf: 0.800"] [Int 500])
      = None
      <-> [Detection.mk (Int 100) (Int 500) (Some (Float 0.8)) None None] = []).
Proof.
  apply (overlay_result_shape (Image.mk 800 600)
           [Detection.mk (Int 100) (Int 500) (Some (Float 0.8)) None None] 600 true
           (mkUI (LastClicked (Some [("x", Int 100); ("y", Int 100)])) false true false)).
  vm_compute. reflexivity.
Defined.

(** X4. A click dictionary that is not empty but carries neither ["x"]
    nor ["y"] falls back to the defaults of [get]: in add or remove mode
    the reported point is [(0, image.height)]. *)
Theorem click_without_coordinates (image : Image.t) (ui : UI)
    (click : list (string * num)) :
  clicked_data ui = LastClicked (Some click) ->
  click <> [] ->
  (forall v, ~ In ("x", v) click) ->
  (forall v, ~ In ("y", v) click) ->
  add_mode ui = true \/ remove_mode ui = true ->
  exists a,
    handle_click image ui
    = Ok (mkResult (Some (Int 0, Int (Image.height image))) (Some a) None)
    /\ (a = "add" \/ a = "remove").
Proof.
  intros Hc Hne Hx Hy Hmode.
  assert (Hflip : flip_y image (dict_get click "y" (Int 0))
                  = Ok (Int (Image.height image))).
  { rewrite (dict_get_absent click "y" (Int 0) Hy). unfold flip_y.
    rewrite sub_int_int. f_equal. f_equal. lia. }
  destruct (add_mode ui) eqn:Ha.
  - exists "add". split; [| left; reflexivity].
    rewrite (handle_click_add image ui click _ Hc Hne Ha Hflip).
    rewrite (dict_get_absent click "x" (Int 0) Hx). reflexivity.
  - destruct Hmode as [Hm | Hm]; [discriminate |].
    exists "remove". split; [| right; reflexivity].
    rewrite (handle_click_remove image ui click _ Hc Hne Ha Hm Hflip).
    rewrite (dict_get_absent click "x" (Int 0) Hx). reflexivity.
Qed.

Lemma click_without_coordinates_witness :
  exists a,
    handle_click (Image.mk 800 600)
      (mkUI (LastClicked (Some [("curveNumber", Int 0)])) true false false)
    = Ok (mkResult (Some (Int 0, Int 600)) (Some a) None)
    /\ (a = "add" \/ a = "remove").
Proof.
  apply (click_without_coordinates (Image.mk 800 600)
           (mkUI (LastClicked (Some [("curveNumber", Int 0)])) true false false)
           [("curveNumber", Int 0)]).
  - reflexivity.
  - discriminate.
  - intros v [H | []]. discriminate.
  - intros v [H | []]. discriminate.
  - left. reflexivity.
Defined.

(** X5. When the figure is built, with a click dictionary, the add
    trigger unset and the remove trigger set, the call returns the click's
    [x] and its flipped [y] tagged "remove". *)
Theorem remove_mode_click (image : Image.t) (detections : list Detection.t)
    (height : Z) (ui : UI) (click : list (string * num)) (trace : option Trace) :
  build_figure image detections height = Ok trace ->
  height_in_float_range image ->
  clicked_data ui = LastClicked (Some click) ->
  click <> [] ->
  add_mode ui = false ->
  remove_mode ui = true ->
  exists cy,
    sub (Int (Image.height image)) (dict_get click "y" (Int 0)) = Ok cy
    /\ display_image_with_points image detections height true ui
       = Ok (trace,
             mkResult (Some (dict_get click "x" (Int 0), cy)) (Some "remove") None).
Proof.
  intros Hfig Hh Hc Hne Ha Hr.
  destruct (flip_y_total image (dict_get click "y" (Int 0)) Hh) as [cy Hcy].
  exists cy. rewrite (display_with_figure _ _ _ _ _ _ Hfig).
  rewrite (handle_click_remove image ui click cy Hc Hne Ha Hr Hcy).
  split; [exact Hcy | reflexivity].
Qed.

Lemma remove_mode_click_witness :
  exists cy,
    sub (Int 600) (dict_get [("x", Int 100); ("y", Int 100)] "y" (Int 0)) = Ok cy
    /\ display_image_with_points (Image.mk 800 600)
         [Detection.mk (Int 100) (Int 500) (Some (Float 0.8)) None None] 600 true
         (mkUI (LastClicked (Some [("x", Int 100); ("y", Int 100)])) false true false)
       = Ok (Some (mkTrace [Int 100] [Int 100] [Float 8.8000000000000007] ["red"]
                     ["Conf: 0.800"] [Int 500]),
             mkResult (Some (dict_get [("x", Int 100); ("y", Int 100)] "x" (Int 0), cy))
               (Some "remove") None).
Proof.
  apply (remove_mode_click (Image.mk 800 600)
           [Detection.mk (Int 100) (Int 500) (Some (Float 0.8)) None None] 600
           (mkUI (LastClicked (Some [("x", Int 100); ("y", Int 100)])) false true false)
           [("x", Int 100); ("y", Int 100)]
           (Some (mkTrace [Int 100] [Int 100] [Float 8.8000000000000007] ["red"]
                    ["Conf: 0.800"] [Int 500]))).
  - vm_compute. reflexivity.
  - unfold height_in_float_range. reflexivity.
  - reflexivity.
  - discriminate.
  - reflexivity.
  - reflexivity.
Defined.

Lemma traverse_raise {A B : Type} (f : A -> result B) (xs : list A) (e : exn) :
  traverse f xs = Raise e -> exists x, In x xs /\ f x = Raise e.
Proof.
  induction xs as [| x xs IH]; simpl; [discriminate |].
  destruct (f x) as [y | e0] eqn:Hx; cbn [Py.bind].
  - destruct (traverse f xs) as [ys | e1]; cbn [Py.bind]; [discriminate |].
    intros [= <-]. destruct (IH eq_refl) as [x' [Hin Hx']].
    exists x'. split; [right; exact Hin | exact Hx'].
  - intros [= <-]. exists x. split; [left; reflexivity | exact Hx].
Qed.

Lemma as_float_raise (n : num) (e : exn) : as_float n = Raise e -> e = OverflowError.
Proof.
  destruct n as [z | f]; simpl; [| discriminate].
  unfold float_of_int. destruct (Z.abs z <? float_of_int_limit); [discriminate |].
  intros [= <-]. reflexivity.
Qed.

Lemma float_op_raise (op : float -> float -> float) (a b : num) (e : exn) :
  Py.bind (as_float a) (fun fa => Py.bind (as_float b) (fun fb => Ok (Float (op fa fb))))
  = Raise e ->
  e = OverflowError.
Proof.
  destruct (as_float a) as [fa | e1] eqn:H1; cbn [Py.bind].
  - destruct (as_float b) as [fb | e2] eqn:H2; cbn [Py.bind]; [discriminate |].
    intros [= <-]. exact (as_float_raise _ _ H2).
  - intros [= <-]. exact (as_float_raise _ _ H1).
Qed.

Lemma sub_raise (a b : num) (e : exn) : sub a b = Raise e -> e = OverflowError.
Proof.
  unfold sub. destruct a as [x | fa], b as [y | fb]; try discriminate;
    apply float_op_raise.
Qed.

Lemma add_raise (a b : num) (e : exn) : add a b = Raise e -> e = OverflowError.
Proof.
  unfold add. destruct a as [x | fa], b as [y | fb]; try discriminate;
    apply float_op_raise.
Qed.

Lemma mul_raise (a b : num) (e : exn) : mul a b = Raise e -> e = OverflowError.
Proof.
  unfold mul. destruct a as [x | fa], b as [y | fb]; try discriminate;
    apply float_op_raise.
Qed.

Lemma size_of_confidence_raise (c : num) (e : exn) :
  size_of_confidence c = Raise e -> e = OverflowError.
Proof.
  unfold size_of_confidence.
  destruct (mul c (Int 6)) as [s | e0] eqn:Hm; cbn [Py.bind].
  - apply add_raise.
  - intros [= <-]. exact (mul_raise _ _ _ Hm).
Qed.

Lemma hover_text_raise (c : num) (e : exn) :
  hover_text c = Raise e -> e = OverflowError.
Proof.
  unfold hover_text, format_3f.
  destruct (as_float c) as [f | e0] eqn:Hc; cbn [Py.bind]; [discriminate |].
  intros [= <-]. exact (as_float_raise _ _ Hc).
Qed.

Lemma scatter_trace_raise (image : Image.t) (detections : list Detection.t)
    (e : exn) :
  scatter_trace image detections = Raise e -> e = OverflowError \/ e = ValueError.
Proof.
  unfold scatter_trace.
  destruct (traverse (fun d => flip_y image (Detection.y d)) detections)
    as [ys | e1] eqn:Hys; cbn [Py.bind].
  - destruct (traverse size_of_confidence (map confidence detections))
      as [ss | e2] eqn:Hss; cbn [Py.bind].
    + destruct (traverse hover_text (map confidence detections))
        as [ts | e3] eqn:Hts; cbn [Py.bind].
      * destruct (forallb valid_marker_size ss); [discriminate |].
        intros [= <-]. right. reflexivity.
      * intros [= <-]. destruct (traverse_raise _ _ _ Hts) as [c [_ Hc]].
        left. exact (hover_text_raise _ _ Hc).
    + intros [= <-]. destruct (traverse_raise _ _ _ Hss) as [c [_ Hc]].
      left. exact (size_of_confidence_raise _ _ Hc).
  - intros [= <-]. destruct (traverse_raise _ _ _ Hys) as [d [_ Hd]].
    left. exact (sub_raise _ _ _ Hd).
Qed.

Lemma build_figure_raise (image : Image.t) (detections : list Detection.t)
    (height : Z) (e : exn) :
  build_figure image detections height = Raise e ->
  e = OverflowError \/ e = ValueError.
Proof.
  unfold build_figure. destruct detections as [| d ds]; cbn [Py.bind].
  - destruct (10 <=? height); [discriminate |]. intros [= <-]. right. reflexivity.
  - destruct (scatter_trace image (d :: ds)) as [t | e0] eqn:Ht; cbn [Py.bind].
    + destruct (10 <=? height); [discriminate |]. intros [= <-]. right. reflexivity.
    + intros [= <-]. exact (scatter_trace_raise _ _ _ Ht).
Qed.

Lemma handle_click_raise (image : Image.t) (ui : UI) (e : exn) :
  handle_click image ui = Raise e ->
  e = OverflowError \/ (e = AttributeError /\ clicked_data ui = LastClickedNotDict).
Proof.
  unfold handle_click.
  destruct (clicked_data ui) as [| | [[| kv click] |] |]; try discriminate.
  - destruct (flip_y image (dict_get (kv :: click) "y" (Int 0))) as [cy | e0] eqn:Hy;
      cbn [Py.bind].
    + destruct (add_mode ui); [discriminate |].
      destruct (remove_mode ui); discriminate.
    + intros [= <-]. left. exact (sub_raise _ _ _ Hy).
  - intros [= <-]. right. split; reflexivity.
Qed.

(** X17. The exceptions of the overlay. A call that raises raises
    [OverflowError] or [ValueError], from building the figure or from
    flipping a clicked ordinate, or else [AttributeError]; and it raises
    [AttributeError] exactly when the figure was built, editing is enabled
    and the chart value has a truthy [last_clicked] that is no dictionary,
    whatever the triggers are. *)
Theorem overlay_exceptions (image : Image.t) (detections : list Detection.t)
    (height : Z) (enable_editing : bool) (ui : UI) (e : exn) :
  (display_image_with_points image detections height enable_editing ui = Raise e ->
   e = OverflowError \/ e = ValueError \/ e = AttributeError)
  /\ (display_image_with_points image detections height enable_editing ui
      = Raise AttributeError
      <-> (exists trace, build_figure image detections height = Ok trace)
          /\ enable_editing = true
          /\ clicked_data ui = LastClickedNotDict).
Proof.
  unfold display_image_with_points.
  destruct (build_figure image detections height) as [tr | e0] eqn:Hfig;
    cbn [Py.bind].
  - destruct enable_editing.
    + destruct (handle_click image ui) as [r | e1] eqn:Hc; cbn [Py.bind].
      * split; [discriminate |]. split; [discriminate |].
        intros [_ [_ Hnd]]. unfold handle_click in Hc. rewrite Hnd in Hc.
        discriminate.
      * destruct (handle_click_raise _ _ _ Hc) as [-> | [-> Hnd]].
        -- split; [intros [= <-]; left; reflexivity |].
           split; [discriminate |].
           intros [_ [_ Hnd]]. unfold handle_click in Hc. rewrite Hnd in Hc.
           discriminate.
        -- split; [intros [= <-]; right; right; reflexivity |].
           split; [| reflexivity].
           intros _. split; [exists tr; reflexivity | split; [reflexivity | exact Hnd]].
    + cbn [Py.bind]. split; [discriminate |]. split; [discriminate |].
      intros [_ [Hoff _]]. discriminate.
  - destruct (build_figure_raise _ _ _ _ Hfig) as [-> | ->].
    + split; [intros [= <-]; left; reflexivity |].
      split; [discriminate |]. intros [[trace Ht] _]. discriminate.
    + split; [intros [= <-]; right; left; reflexivity |].
      split; [discriminate |]. intros [[trace Ht] _]. discriminate.
Qed.

End OverlayCoverage.

(* ================================================================== *)
(** * Further properties of the ROI selector *)
(* ================================================================== *)

Section RoiCoverage.

Import ROISelector.

Lemma int_truediv_zero_division (a b : Z) :
  int_truediv a b = Raise ZeroDivisionError <-> b = 0.
Proof.
  unfold int_truediv. destruct (Z.eqb_spec b 0) as [-> | Hb].
  - split; reflexivity.
  - split; [| contradiction].
    destruct (a =? 0); [discriminate |].
    destruct (binary_normalize _ _ _ _ _); discriminate.
Qed.

Lemma mul_int_float_raise (w : Z) (q : float) (e : exn) :
  mul (Int w) (Float q) = Raise e -> e = OverflowError.
Proof.
  unfold mul, as_float, float_of_int.
  destruct (Z.abs w <? float_of_int_limit); cbn [Py.bind]; [discriminate |].
  intros [= <-]. reflexivity.
Qed.

(** [int(n)] of a number with a non-positive value is its ceiling. *)
Lemma float_trunc_ceil (f : float) (z : Z) (q : Q) :
  float_trunc f = Ok z -> float_value f = Some q -> (q <= 0)%Q ->
  (q <= inject_Z z)%Q /\ (inject_Z z < q + 1)%Q.
Proof.
  unfold float_trunc, float_value.
  destruct (Prim2SF f) as [s | s | | s m e]; try discriminate.
  - intros [= <-] [= <-] _. split; [apply Qle_refl | reflexivity].
  - destruct (Z.leb_spec 0 e) as [He | He].
    + assert (Hm : 0 < Z.pos m * 2 ^ e).
      { apply Z.mul_pos_pos; [lia | apply Z.pow_pos_nonneg; lia]. }
      generalize dependent (Z.pos m * 2 ^ e). intros v Hv [= <-] [= <-] Hneg.
      destruct s; unfold Qle, Qlt, Qplus, Qopp, inject_Z in *;
        cbn [Qnum Qden] in *; lia.
    + assert (Hd : 0 < 2 ^ (- e)) by (apply Z.pow_pos_nonneg; lia).
      pose proof (Z.div_mod (Z.pos m) (2 ^ (- e)) ltac:(lia)) as Hdm.
      pose proof (Z.mod_pos_bound (Z.pos m) (2 ^ (- e)) Hd) as Hb.
      assert (Hid : Z.pos (Z.to_pos (2 ^ (- e))) = 2 ^ (- e)) by (apply Z2Pos.id; exact Hd).
      generalize dependent (Z.pos m / 2 ^ (- e)).
      generalize dependent (Z.pos m mod 2 ^ (- e)).
      generalize dependent (Z.to_pos (2 ^ (- e))).
      generalize dependent (2 ^ (- e)).
      intros d Hd p Hid r Hr k Hdm [= <-] [= <-] Hneg.
      destruct s; unfold Qle, Qlt, Qplus, Qopp, inject_Z in *;
        cbn [Qnum Qden] in *; nia.
Qed.

Lemma int_of_num_ceil (n : num) (z : Z) (q : Q) :
  int_of_num n = Ok z -> value n = Some q -> (q <= 0)%Q ->
  (q <= inject_Z z)%Q /\ (inject_Z z < q + 1)%Q.
Proof.
  destruct n as [v | f]; simpl.
  - intros [= <-] [= <-] _. split.
    + apply Qle_refl.
    + rewrite <- (Qplus_0_r (inject_Z v)) at 1.
      apply Qplus_lt_r. reflexivity.
  - apply float_trunc_ceil.
Qed.

(** Truncation toward zero keeps the order of two values. *)
Lemma int_of_num_monotone (pa pb : num) (z1 z2 : Z) (a b : Q) :
  int_of_num pa = Ok z1 -> value pa = Some a ->
  int_of_num pb = Ok z2 -> value pb = Some b ->
  (a <= b)%Q -> z1 <= z2.
Proof.
  intros H1 Ha H2 Hb Hab.
  destruct (Qlt_le_dec a 0) as [Haneg | Hapos].
  - destruct (int_of_num_ceil pa z1 a H1 Ha (Qlt_le_weak _ _ Haneg)) as [_ Hu1].
    destruct (Qlt_le_dec b 0) as [Hbneg | Hbpos].
    + destruct (int_of_num_ceil pb z2 b H2 Hb (Qlt_le_weak _ _ Hbneg)) as [Hl2 _].
      assert (Hz : (inject_Z z1 < inject_Z z2 + 1)%Q) by lra.
      unfold Qlt, Qplus, inject_Z in Hz. cbn [Qnum Qden] in Hz. lia.
    + destruct (int_of_num_floor pb z2 b H2 Hb Hbpos) as [_ Hu2].
      assert (Hz1 : (inject_Z z1 < 1)%Q) by lra.
      assert (Hz2 : (0 < inject_Z z2 + 1)%Q) by lra.
      unfold Qlt, Qplus, inject_Z in Hz1, Hz2. cbn [Qnum Qden] in Hz1, Hz2. lia.
  - destruct (int_of_num_floor pa z1 a H1 Ha Hapos) as [Hl1 _].
    assert (Hbpos : (0 <= b)%Q) by lra.
    destruct (int_of_num_floor pb z2 b H2 Hb Hbpos) as [_ Hu2].
    assert (Hz : (inject_Z z1 < inject_Z z2 + 1)%Q) by lra.
    unfold Qlt, Qplus, inject_Z in Hz. cbn [Qnum Qden] in Hz. lia.
Qed.

(** X6. When the last drawn object is not a rectangle the selector
    returns [None], even if rectangles were drawn before it. *)
Theorem roi_last_not_rect (image : Image.t) (height : Z)
    (st_canvas : num -> Z -> CanvasResult) (w : num)
    (earlier : list CanvasObject.t) (o : CanvasObject.t) :
  canvas_width image height = Ok w ->
  json_data (st_canvas w height) = Some (earlier ++ [o])%list ->
  CanvasObject.type o <> "rect" ->
  draw_roi_selector image height st_canvas = Ok None.
Proof.
  intros Hw Hjson Htype.
  rewrite (draw_roi_selector_unfold image height st_canvas w Hw).
  rewrite (extract_roi_last image _ earlier o Hjson).
  destruct (String.eqb_spec (CanvasObject.type o) "rect") as [Heq | _];
    [contradiction | reflexivity].
Qed.

Lemma roi_last_not_rect_witness :
  draw_roi_selector (Image.mk 800 600) 450
    (fun _ _ => mkCanvas
       (Some [CanvasObject.mk "rect" (Float 10.5) (Int 20) (Float 100.25) (Int 50);
              CanvasObject.mk "circle" (Int 1) (Int 1) (Int 5) (Int 5)])
       450 600)
  = Ok None.
Proof.
  apply (roi_last_not_rect (Image.mk 800 600) 450
           (fun _ _ => mkCanvas
              (Some [CanvasObject.mk "rect" (Float 10.5) (Int 20) (Float 100.25) (Int 50);
                     CanvasObject.mk "circle" (Int 1) (Int 1) (Int 5) (Int 5)])
              450 600)
           (Float 600)
           [CanvasObject.mk "rect" (Float 10.5) (Int 20) (Float 100.25) (Int 50)]
           (CanvasObject.mk "circle" (Int 1) (Int 1) (Int 5) (Int 5))).
  - vm_compute. reflexivity.
  - reflexivity.
  - discriminate.
Defined.

(** X7. A canvas whose pixel buffer has no columns makes the conversion
    of a drawn rectangle raise [ZeroDivisionError]; one with no rows makes
    it raise as well (the same error once [scale_x] is computed). *)
Theorem roi_empty_canvas_raises (image : Image.t) (height : Z)
    (st_canvas : num -> Z -> CanvasResult) (w : num)
    (earlier : list CanvasObject.t) (rect : CanvasObject.t) :
  canvas_width image height = Ok w ->
  json_data (st_canvas w height) = Some (earlier ++ [rect])%list ->
  CanvasObject.type rect = "rect" ->
  (shape1 (st_canvas w height) = 0 ->
   draw_roi_selector image height st_canvas = Raise ZeroDivisionError)
  /\ (shape0 (st_canvas w height) = 0 ->
      exists e, draw_roi_selector image height st_canvas = Raise e
                /\ (e = ZeroDivisionError \/ e = OverflowError)).
Proof.
  intros Hw Hjson Htype.
  rewrite (draw_roi_selector_unfold image height st_canvas w Hw).
  rewrite (extract_roi_last image _ earlier rect Hjson).
  rewrite Htype. cbn [String.eqb Ascii.eqb Bool.eqb]. unfold remap.
  split; intros Hz; rewrite Hz.
  - rewrite (proj2 (int_truediv_zero_division (Image.width image) 0) eq_refl).
    reflexivity.
  - rewrite (proj2 (int_truediv_zero_division (Image.height image) 0) eq_refl).
    destruct (int_truediv (Image.width image) (shape1 (st_canvas w height)))
      as [sx | e] eqn:Hsx; cbn [Py.bind].
    + exists ZeroDivisionError. split; [reflexivity | left; reflexivity].
    + exists e. split; [reflexivity |].
      unfold int_truediv in Hsx.
      destruct (shape1 (st_canvas w height) =? 0); [injection Hsx as <-; left; reflexivity |].
      destruct (Image.width image =? 0); [discriminate |].
      destruct (binary_normalize _ _ _ _ _); try discriminate.
      injection Hsx as <-. right. reflexivity.
Qed.

Lemma roi_empty_canvas_raises_witness :
  (shape1 (mkCanvas
             (Some [CanvasObject.mk "rect" (Float 10.5) (Int 20) (Float 100.25) (Int 50)])
             0 0) = 0 ->
   draw_roi_selector (Image.mk 800 600) 450
     (fun _ _ => mkCanvas
        (Some [CanvasObject.mk "rect" (Float 10.5) (Int 20) (Float 100.25) (Int 50)])
        0 0)
   = Raise ZeroDivisionError)
  /\ (shape0 (mkCanvas
                (Some [CanvasObject.mk "rect" (Float 10.5) (Int 20) (Float 100.25) (Int 50)])
                0 0) = 0 ->
      exists e,
        draw_roi_selector (Image.mk 800 600) 450
          (fun _ _ => mkCanvas
             (Some [CanvasObject.mk "rect" (Float 10.5) (Int 20) (Float 100.25) (Int 50)])
             0 0)
        = Raise e
        /\ (e = ZeroDivisionError \/ e = OverflowError)).
Proof.
  apply (roi_empty_canvas_raises (Image.mk 800 600) 450
           (fun _ _ => mkCanvas
              (Some [CanvasObject.mk "rect" (Float 10.5) (Int 20) (Float 100.25) (Int 50)])
              0 0)
           (Float 600) []
           (CanvasObject.mk "rect" (Float 10.5) (Int 20) (Float 100.25) (Int 50))).
  - vm_compute. reflexivity.
  - reflexivity.
  - reflexivity.
Defined.

(** X8. Computing the canvas width raises [ZeroDivisionError] exactly for
    an image of height 0 shown at a negative display height; the canvas is
    then never drawn. An image of height 0 at a display height of 0 or
    more takes the unscaled branch and does not divide. *)
Theorem canvas_width_zero_division (image : Image.t) (height : Z) :
  (canvas_width image height = Raise ZeroDivisionError
   <-> Image.height image = 0 /\ height < 0)
  /\ (forall st_canvas,
        canvas_width image height = Raise ZeroDivisionError ->
        draw_roi_selector image height st_canvas = Raise ZeroDivisionError)
  /\ (Image.height image = 0 -> 0 <= height ->
      canvas_width image height = Ok (Int (Image.width image))).
Proof.
  split; [| split].
  - unfold canvas_width.
    destruct (Z.gtb_spec (Image.height image) height) as [Hgt | Hle].
    + split.
      * intros H.
        destruct (int_truediv height (Image.height image)) as [q | e] eqn:Hq;
          cbn [Py.bind] in H.
        -- apply mul_int_float_raise in H. discriminate.
        -- injection H as ->. apply int_truediv_zero_division in Hq. lia.
      * intros [H0 Hneg].
        rewrite (proj2 (int_truediv_zero_division height (Image.height image)) H0).
        reflexivity.
    + split; [discriminate | lia].
  - intros st_canvas H. unfold draw_roi_selector. rewrite H. reflexivity.
  - intros H0 Hh. unfold canvas_width.
    destruct (Z.gtb_spec (Image.height image) height) as [Hgt | _]; [lia | reflexivity].
Qed.

(** X9. Truncation keeps the order of the scaled coordinates: when the
    product computed for [u] is not above the one computed for [v] (as
    exact values), the pixel of [u] is not above the pixel of [v]. A
    rectangle whose scaled right edge is not left of its scaled left edge
    therefore gets [x1 <= x2], possibly [x1 = x2]. *)
Theorem to_image_monotone (u v : num) (scale : float) (z1 z2 : Z) (a b : Q) :
  to_image u scale = Ok z1 ->
  to_image v scale = Ok z2 ->
  scaled_value u scale = Some a ->
  scaled_value v scale = Some b ->
  (a <= b)%Q ->
  z1 <= z2.
Proof.
  intros H1 H2 Ha Hb Hab.
  apply bind_ok in H1. destruct H1 as [pa [Hpa H1]].
  apply bind_ok in H2. destruct H2 as [pb [Hpb H2]].
  unfold scaled_value in Ha, Hb. rewrite Hpa in Ha. rewrite Hpb in Hb.
  exact (int_of_num_monotone pa pb z1 z2 a b H1 Ha H2 Hb Hab).
Qed.

Lemma to_image_monotone_witness : 14 <= 147.
Proof.
  eapply (to_image_monotone (Float 10.5) (Float 110.75) (800 / 600)%float 14 147).
  - vm_compute. reflexivity.
  - vm_compute. reflexivity.
  - reflexivity.
  - reflexivity.
  - vm_compute. discriminate.
Defined.

End RoiCoverage.

(* ================================================================== *)
(** * Further properties of the manual point editor *)
(* ================================================================== *)

Section EditorCoverage.

Import ManualPointEditor.

Lemma point_options_from_length (ds : list Detection.t) :
  forall (k : nat) (options : list string),
    point_options_from k ds = Ok options ->
    List.length options = List.length ds.
Proof.
  induction ds as [| d ds IH]; intros k options H; simpl in H.
  - injection H as <-. reflexivity.
  - apply bind_ok in H. destruct H as [l [_ H]].
    apply bind_ok in H. destruct H as [ls [Hls H]].
    injection H as <-. simpl. rewrite (IH _ _ Hls). reflexivity.
Qed.

(** Every option is the label of the detection at its own position. *)
Lemma point_options_nth_label (detections : list Detection.t)
    (options : list string) (i : nat) (l : string) :
  point_options detections = Ok options ->
  nth_error options i = Some l ->
  exists d xi yi,
    nth_error detections i = Some d /\ l = format_label i xi yi.
Proof.
  intros Hopts Hl.
  assert (Hlt : (i < List.length detections)%nat).
  { rewrite <- (point_options_from_length _ _ _ Hopts).
    apply nth_error_Some. rewrite Hl. discriminate. }
  destruct (nth_error detections i) as [d |] eqn:Hd;
    [| apply nth_error_None in Hd; lia].
  destruct (point_options_from_nth detections 0 options i d Hopts Hd)
    as [l' [Hl' Hlab]].
  rewrite Hl in Hl'. injection Hl' as <-.
  destruct (label_ok _ _ _ Hlab) as [xi [yi ->]].
  exists d, xi, yi. split; reflexivity.
Qed.

Lemma int_of_num_raise_kind (n : num) (e : exn) :
  int_of_num n = Raise e -> e = OverflowError \/ e = ValueError.
Proof.
  destruct n as [z | f]; simpl; [discriminate |].
  unfold float_trunc. destruct (Prim2SF f); intros [= <-]; auto.
Qed.

Lemma label_raise_kind (i : nat) (d : Detection.t) (e : exn) :
  label i d = Raise e -> e = OverflowError \/ e = ValueError.
Proof.
  unfold label.
  destruct (int_of_num (Detection.x d)) as [xi | ex] eqn:Hx; cbn [Py.bind].
  - destruct (int_of_num (Detection.y d)) as [yi | ey] eqn:Hy; cbn [Py.bind].
    + discriminate.
    + intros [= <-]. exact (int_of_num_raise_kind _ _ Hy).
  - intros [= <-]. exact (int_of_num_raise_kind _ _ Hx).
Qed.

Lemma label_raises (i : nat) (d : Detection.t) (e : exn) :
  int_of_num (Detection.x d) = Raise e \/ int_of_num (Detection.y d) = Raise e ->
  exists e', label i d = Raise e'.
Proof.
  unfold label. intros [Hx | Hy].
  - rewrite Hx. exists e. reflexivity.
  - destruct (int_of_num (Detection.x d)) as [xi | ex]; cbn [Py.bind].
    + rewrite Hy. exists e. reflexivity.
    + exists ex. reflexivity.
Qed.

Lemma point_options_from_raises (ds : list Detection.t) :
  forall (k i : nat) (d : Detection.t) (e : exn),
    nth_error ds i = Some d ->
    int_of_num (Detection.x d) = Raise e \/ int_of_num (Detection.y d) = Raise e ->
    exists e', point_options_from k ds = Raise e'
               /\ (e' = OverflowError \/ e' = ValueError).
Proof.
  induction ds as [| d0 ds IH]; intros k i d e Hi Hbad.
  - destruct i; discriminate.
  - simpl. destruct (label k d0) as [l0 | e0] eqn:Hl0; cbn [Py.bind].
    + destruct i as [| i]; simpl in Hi.
      * injection Hi as <-.
        destruct (label_raises k d0 e Hbad) as [e' He']. congruence.
      * destruct (IH (S k) i d e Hi Hbad) as [e' [He' Hkind]].
        rewrite He'. exists e'. split; [reflexivity | exact Hkind].
    + exists e0. split; [reflexivity | exact (label_raise_kind _ _ _ Hl0)].
Qed.

Lemma remove_selected_index_witness :
  edit_points_interface
    [Detection.mk (Int 100) (Int 500) None None None;
     Detection.mk (Float 10.5) (Float 100.1) None None None]
    (800, 600) (mkUI (Int 5) (Int 6) true 1 true)
  = Ok (mkResult (Some "remove")
          (point (add_flow (mkUI (Int 5) (Int 6) true 1 true) empty_result))
          (Some (Z.of_nat 1))).
Proof.
  apply (remove_selected_index
           [Detection.mk (Int 100) (Int 500) None None None;
            Detection.mk (Float 10.5) (Float 100.1) None None None]
           ["Point 1: (100, 500)"; "Point 2: (10, 100)"] (800, 600)
           (mkUI (Int 5) (Int 6) true 1 true) 1).
  - vm_compute. reflexivity.
  - simpl. lia.
  - reflexivity.
  - reflexivity.
Defined.

(** X10. A returned dictionary is either what the add flow left (with no
    index), or a remove instruction for the position chosen in the select
    box; an index, when present, is a valid position of the detection
    list. *)
Theorem editor_result_shape (detections : list Detection.t) (image_size : Z * Z)
    (ui : UI) (res : Result) :
  edit_points_interface detections image_size ui = Ok res ->
  ((res = (if add_btn ui
           then mkResult (Some "add") (Some (add_x ui, add_y ui)) None
           else mkResult None None None))
   \/ (remove_btn ui = true
       /\ res = mkResult (Some "remove")
                  (if add_btn ui then Some (add_x ui, add_y ui) else None)
                  (Some (Z.of_nat (remove_select ui)))))
  /\ forall k, index res = Some k -> 0 <= k < Z.of_nat (List.length detections).
Proof.
  unfold edit_points_interface, remove_flow. intros H.
  assert (Hadd : add_flow ui empty_result
                 = (if add_btn ui
                    then mkResult (Some "add") (Some (add_x ui, add_y ui)) None
                    else mkResult None None None)).
  { unfold add_flow, empty_result. destruct (add_btn ui); reflexivity. }
  assert (Hnoidx : forall k, index (add_flow ui empty_result) = Some k -> False).
  { intros k. rewrite Hadd. destruct (add_btn ui); discriminate. }
  destruct detections as [| d0 ds].
  - injection H as <-. split; [left; exact Hadd |].
    intros k Hk. destruct (Hnoidx k Hk).
  - apply bind_ok in H. destruct H as [options [Hopts H]].
    unfold selectbox in H.
    destruct (nth_error options (remove_select ui)) as [l |] eqn:Hl.
    + destruct (remove_btn ui) eqn:Hbtn; cbn [andb] in H.
      * destruct (point_options_nth_label _ _ _ _ Hopts Hl)
          as [d [xi [yi [Hd ->]]]].
        rewrite format_label_truthy in H.
        rewrite parse_index_format_label in H. cbn [Py.bind] in H.
        injection H as <-. split.
        -- right. split; [reflexivity |].
           unfold add_flow, empty_result. destruct (add_btn ui); reflexivity.
        -- intros k [= <-].
           assert (Hlt : (remove_select ui < List.length (d0 :: ds))%nat).
           { apply nth_error_Some. rewrite Hd. discriminate. }
           lia.
      * injection H as <-. split; [left; exact Hadd |].
        intros k Hk. destruct (Hnoidx k Hk).
    + injection H as <-. split; [left; exact Hadd |].
      intros k Hk. destruct (Hnoidx k Hk).
Qed.

Lemma editor_result_shape_witness :
  ((mkResult (Some "remove") (Some (Int 5, Int 6)) (Some 1)
    = (if add_btn (mkUI (Int 5) (Int 6) true 1 true)
       then mkResult (Some "add")
              (Some (add_x (mkUI (Int 5) (Int 6) true 1 true),
                     add_y (mkUI (Int 5) (Int 6) true 1 true))) None
       else mkResult None None None))
   \/ (remove_btn (mkUI (Int 5) (Int 6) true 1 true) = true
       /\ mkResult (Some "remove") (Some (Int 5, Int 6)) (Some 1)
          = mkResult (Some "remove")
              (if add_btn (mkUI (Int 5) (Int 6) true 1 true)
               then Some (add_x (mkUI (Int 5) (Int 6) true 1 true),
                          add_y (mkUI (Int 5) (Int 6) true 1 true))
               else None)
              (Some (Z.of_nat (remove_select (mkUI (Int 5) (Int 6) true 1 true))))))
  /\ forall k,
       index (mkResult (Some "remove") (Some (Int 5, Int 6)) (Some 1)) = Some k ->
       0 <= k
       < Z.of_nat
           (List.length
              [Detection.mk (Int 100) (Int 500) None None None;
               Detection.mk (Float 10.5) (Float 100.1) None None None]).
Proof.
  apply (editor_result_shape
           [Detection.mk (Int 100) (Int 500) None None None;
            Detection.mk (Float 10.5) (Float 100.1) None None None]
           (800, 600) (mkUI (Int 5) (Int 6) true 1 true)).
  vm_compute. reflexivity.
Defined.

(** X11. The select box gets one label per detection, and the labels are
    pairwise distinct, even for detections with the same coordinates: the
    position printed in a label tells them apart. *)
Theorem point_options_distinct (detections : list Detection.t)
    (options : list string) :
  point_options detections = Ok options ->
  List.length options = List.length detections /\ NoDup options.
Proof.
  intros Hopts. split.
  - exact (point_options_from_length _ _ _ Hopts).
  - apply NoDup_nth_error. intros i j Hi Hij.
    destruct (nth_error options i) as [l |] eqn:Hl;
      [| apply nth_error_None in Hl; lia].
    symmetry in Hij.
    destruct (point_options_nth_label _ _ _ _ Hopts Hl) as [d [xi [yi [_ E1]]]].
    destruct (point_options_nth_label _ _ _ _ Hopts Hij) as [d' [xj [yj [_ E2]]]].
    pose proof (parse_index_format_label i xi yi) as P1.
    pose proof (parse_index_format_label j xj yj) as P2.
    rewrite <- E1 in P1. rewrite <- E2 in P2. rewrite P1 in P2.
    injection P2 as P2. lia.
Qed.

Lemma point_options_distinct_witness :
  List.length ["Point 1: (10, 20)"; "Point 2: (10, 20)"]
  = List.length
      [Detection.mk (Int 10) (Int 20) None None None;
       Detection.mk (Float 10.5) (Float 20.25) None None None]
  /\ NoDup ["Point 1: (10, 20)"; "Point 2: (10, 20)"].
Proof.
  apply (point_options_distinct
           [Detection.mk (Int 10) (Int 20) None None None;
            Detection.mk (Float 10.5) (Float 20.25) None None None]
           ["Point 1: (10, 20)"; "Point 2: (10, 20)"]).
  vm_compute. reflexivity.
Defined.

(** X13. While the remove button is not pressed and the labels can be
    built, the result is the add flow's alone: "add" with the two entered
    numbers when the add button was pressed, all [None] otherwise. *)
Theorem add_only_result (detections : list Detection.t) (options : list string)
    (image_size : Z * Z) (ui : UI) :
  point_options detections = Ok options ->
  remove_btn ui = false ->
  edit_points_interface detections image_size ui
  = Ok (if add_btn ui
        then mkResult (Some "add") (Some (add_x ui, add_y ui)) None
        else mkResult None None None).
Proof.
  intros Hopts Hbtn. unfold edit_points_interface, remove_flow, add_flow, empty_result.
  destruct detections as [| d0 ds].
  - destruct (add_btn ui); reflexivity.
  - rewrite Hopts. cbn [Py.bind]. rewrite Hbtn. cbn [andb].
    destruct (selectbox options (remove_select ui));
      destruct (add_btn ui); reflexivity.
Qed.

Lemma add_only_result_witness :
  edit_points_interface
    [Detection.mk (Int 100) (Int 500) None None None;
     Detection.mk (Float 10.5) (Float 100.1) None None None]
    (800, 600) (mkUI (Int 5) (Float 6.5) true 1 false)
  = Ok (if add_btn (mkUI (Int 5) (Float 6.5) true 1 false)
        then mkResult (Some "add")
               (Some (add_x (mkUI (Int 5) (Float 6.5) true 1 false),
                      add_y (mkUI (Int 5) (Float 6.5) true 1 false))) None
        else mkResult None None None).
Proof.
  apply (add_only_result
           [Detection.mk (Int 100) (Int 500) None None None;
            Detection.mk (Float 10.5) (Float 100.1) None None None]
           ["Point 1: (100, 500)"; "Point 2: (10, 100)"] (800, 600)
           (mkUI (Int 5) (Float 6.5) true 1 false)).
  - vm_compute. reflexivity.
  - reflexivity.
Defined.

(** X14. A detection whose [x] or [y] cannot go through [int] (a NaN or
    an infinity) makes the editor raise, [ValueError] or [OverflowError],
    whichever buttons were pressed: the labels are built before any button
    is looked at. *)
Theorem editor_raises_on_bad_coordinate (detections : list Detection.t)
    (image_size : Z * Z) (ui : UI) (i : nat) (d : Detection.t) (e : exn) :
  nth_error detections i = Some d ->
  int_of_num (Detection.x d) = Raise e \/ int_of_num (Detection.y d) = Raise e ->
  exists e',
    edit_points_interface detections image_size ui = Raise e'
    /\ (e' = OverflowError \/ e' = ValueError).
Proof.
  intros Hi Hbad.
  destruct (point_options_from_raises detections 0 i d e Hi Hbad) as [e' [He' Hkind]].
  exists e'. split; [| exact Hkind].
  unfold edit_points_interface, remove_flow.
  destruct detections as [| d0 ds]; [destruct i; discriminate |].
  unfold point_options. rewrite He'. reflexivity.
Qed.

Lemma editor_raises_on_bad_coordinate_witness :
  exists e',
    edit_points_interface
      [Detection.mk (Int 100) (Int 500) None None None;
       Detection.mk (Float nan) (Float 100.1) None None None]
      (800, 600) (mkUI (Int 5) (Int 6) true 0 false)
    = Raise e'
    /\ (e' = OverflowError \/ e' = ValueError).
Proof.
  apply (editor_raises_on_bad_coordinate
           [Detection.mk (Int 100) (Int 500) None None None;
            Detection.mk (Float nan) (Float 100.1) None None None]
           (800, 600) (mkUI (Int 5) (Int 6) true 0 false) 1
           (Detection.mk (Float nan) (Float 100.1) None None None) ValueError).
  - reflexivity.
  - left. vm_compute. reflexivity.
Defined.

End EditorCoverage.

(* ================================================================== *)
(** * Marker colours and substrings *)
(* ================================================================== *)

Section ColourCoverage.

Import InteractiveImageEditor.

Lemma prefix_spec (a b : string) :
  String.prefix a b = true <-> exists post, b = (a ++ post)%string.
Proof.
  revert b. induction a as [| c a IH]; intros b.
  - split; [intros _; exists b; reflexivity |].
    intros _. destruct b; reflexivity.
  - destruct b as [| c' b]; simpl.
    + split; [discriminate | intros [post H]; discriminate].
    + destruct (ascii_dec c c') as [-> | Hne].
      * rewrite IH. split; intros [post H]; exists post.
        -- rewrite H. reflexivity.
        -- injection H as ->. reflexivity.
      * split; [discriminate |].
        intros [post H]. injection H as H _. congruence.
Qed.

(** [needle in hay] holds exactly when [hay] is some text, then
    [needle], then some text. *)
Lemma contains_spec (needle hay : string) :
  contains needle hay = true
  <-> exists pre post, hay = (pre ++ needle ++ post)%string.
Proof.
  induction hay as [| c t IH].
  - change (contains needle "") with (String.prefix needle "" || false).
    rewrite orb_false_r. rewrite prefix_spec. split.
    + intros [post H]. exists "", post. exact H.
    + intros [pre [post H]]. destruct pre as [| c pre]; [| discriminate].
      exists post. exact H.
  - change (contains needle (String c t))
      with (String.prefix needle (String c t) || contains needle t).
    rewrite orb_true_iff, prefix_spec, IH. split.
    + intros [[post H] | [pre [post H]]].
      * exists "", post. exact H.
      * exists (String c pre), post. rewrite H. reflexivity.
    + intros [pre [post H]]. destruct pre as [| c' pre].
      * left. exists post. exact H.
      * right. injection H as _ H. exists pre, post. exact H.
Qed.

(** X15. What a colour tells about a detection: a marker is green
    exactly when the manual flag is set; it is blue exactly when the flag
    is not set and the method has "roi" but not "grid" somewhere inside
    it; every other marker is red, so red does not tell a grid detection
    from one with no known method. *)
Theorem marker_color_meaning (d : Detection.t) :
  (marker_color d = "green" <-> is_manual d = true)
  /\ (marker_color d = "blue"
      <-> is_manual d = false
          /\ (exists pre post, method_of d = (pre ++ "roi" ++ post)%string)
          /\ ~ (exists pre post, method_of d = (pre ++ "grid" ++ post)%string))
  /\ (marker_color d = "green" \/ marker_color d = "blue" \/ marker_color d = "red").
Proof.
  rewrite <- !contains_spec.
  unfold marker_color, is_manual, method_of.
  destruct (match Detection.manual d with Some b => b | None => false end).
  - split; [split; reflexivity || discriminate | split].
    + split; [discriminate | intros [H _]; discriminate].
    + left. reflexivity.
  - destruct (contains "grid" _) eqn:Hg.
    + split; [split; discriminate | split].
      * split; [discriminate |]. intros [_ [_ H]]. exfalso. apply H. reflexivity.
      * right. right. reflexivity.
    + destruct (contains "roi" _) eqn:Hr.
      * split; [split; discriminate | split].
        -- split; [| reflexivity]. intros _. repeat split. discriminate.
        -- right. left. reflexivity.
      * split; [split; discriminate | split].
        -- split; [discriminate |]. intros [_ [H _]]. discriminate.
        -- right. right. reflexivity.
Qed.

End ColourCoverage.
